(** * filtop: a shallow embedding of [filtop.go]

    The dashboard polls a Filebeat agent, keeps the last snapshot and a
    bounded history, and renders derived values. This development embeds
    the poll loop ([dataWorker], [fetchStats], [fetchInputs]), the pure
    formatter [formatBytes] and the widget updates ([updateSystemMetrics],
    [updateQueue], [updateInputs]) and proves properties of them.

    Conventions.
    - [uint64], [int64] and [int] values are [Z] with the wrap-around
      written out where the source computes with them.
    - [float64] is Rocq's primitive binary64 [float]; integer to float
      conversions round to nearest even as the hardware does.
    - Pointers ([*FilebeatStats]) are addresses into an explicit heap.
    - Library calls ([fmt.Sprintf], [time.Duration], [tview.Table]) are
      embedded as the small functions of the [Fmt], [Time] and [Tview]
      modules, following the library's documented behaviour. *)

From Stdlib Require Import ZArith Lia Bool List Ascii String Floats DecimalString.
Import ListNotations.

Local Open Scope Z_scope.

(** ** Machine integers *)

Module Int.

Definition uint64_max : Z := 2 ^ 64 - 1.

Definition is_uint64 (z : Z) : Prop := 0 <= z <= uint64_max.

Definition wrap_uint64 (z : Z) : Z := z mod 2 ^ 64.

(** Two's complement reading of the low 64 bits. *)
Definition wrap_int64 (z : Z) : Z := (z + 2 ^ 63) mod 2 ^ 64 - 2 ^ 63.

Definition is_int64 (z : Z) : Prop := - 2 ^ 63 <= z < 2 ^ 63.

Definition in_int64 (z : Z) : bool := (- 2 ^ 63 <=? z) && (z <? 2 ^ 63).

Lemma wrap_int64_small z : is_int64 z -> wrap_int64 z = z.
Proof.
  unfold is_int64, wrap_int64. intros H.
  rewrite Z.mod_small; lia.
Qed.

Lemma wrap_uint64_small z : is_uint64 z -> wrap_uint64 z = z.
Proof.
  unfold is_uint64, uint64_max, wrap_uint64. intros H.
  apply Z.mod_small. lia.
Qed.


End Int.

(** ** float64 *)

Module F64.

(** [float64(z)] for an integer [z]: the nearest binary64, ties to even. *)
Definition of_Z (z : Z) : float :=
  SF2Prim (binary_normalize prec emax z 0 false).

Definition is_nan (f : float) : bool :=
  match Prim2SF f with S754_nan => true | _ => false end.

Definition is_inf (f : float) : bool :=
  match Prim2SF f with S754_infinity _ => true | _ => false end.

Definition is_finite (f : float) : bool :=
  match Prim2SF f with
  | S754_zero _ | S754_finite _ _ _ => true
  | _ => false
  end.

Definition signed (s : bool) (z : Z) : Z := if s then - z else z.

(** The integer part of a finite float (rounding toward zero); [None] for
    NaN and the infinities. *)
Definition trunc (f : float) : option Z :=
  match Prim2SF f with
  | S754_zero _ => Some 0
  | S754_finite s m e =>
      Some (signed s (if 0 <=? e then Z.pos m * 2 ^ e
                      else Z.pos m / 2 ^ (- e)))
  | _ => None
  end.

(** The greatest integer below or equal to a finite float. *)
Definition floor (f : float) : option Z :=
  match Prim2SF f with
  | S754_zero _ => Some 0
  | S754_finite s m e =>
      Some (if 0 <=? e then signed s (Z.pos m * 2 ^ e)
            else if s then - ((Z.pos m + 2 ^ (- e) - 1) / 2 ^ (- e))
                 else Z.pos m / 2 ^ (- e))
  | _ => None
  end.

(** A float whose integer part fits [int] (64 bits). *)
Definition fits_int (f : float) : bool :=
  match trunc f with
  | Some z => Int.in_int64 z
  | None => false
  end.

Section Conversion.

(** Go leaves [int(f)] implementation-dependent when [f] is NaN, an
    infinity or out of the range of [int]: [unrepresentable] stands for
    what the platform returns there. *)
Variable unrepresentable : float -> Z.

Definition to_int (f : float) : Z :=
  match trunc f with
  | Some z => if Int.in_int64 z then z else unrepresentable f
  | None => unrepresentable f
  end.

End Conversion.

(** What the amd64 instruction CVTTSD2SQ returns out of range. *)
Definition amd64_indefinite (_ : float) : Z := - 2 ^ 63.

End F64.

(** ** The verbs of [fmt.Sprintf] the program uses *)

Module Fmt.

Local Open Scope string_scope.

(** [%d] *)
Definition d (z : Z) : string := NilZero.string_of_int (Z.to_int z).

(** [%t] *)
Definition t (b : bool) : string := if b then "true" else "false".

(** [%c] *)
Definition c (a : ascii) : string := String a EmptyString.

Fixpoint zeros (n : nat) : string :=
  match n with
  | O => ""
  | S k => "0" ++ zeros k
  end.

(** Decimal digits of [z], left-padded with zeros to [width]. *)
Definition padded (width : nat) (z : Z) : string :=
  let s := d z in
  zeros (width - String.length s) ++ s.

(** [n / dn] rounded to the nearest integer, ties to even ([0 < dn]). *)
Definition round_half_even (n dn : Z) : Z :=
  let q := (n / dn)%Z in
  let r := (n mod dn)%Z in
  if (2 * r <? dn)%Z then q
  else if (dn <? 2 * r)%Z then (q + 1)%Z
  else if Z.even q then q else (q + 1)%Z.

(** [m * 2^e * 10^prec], correctly rounded to an integer. *)
Definition scaled (prec : nat) (m : positive) (e : Z) : Z :=
  let n := (Z.pos m * 10 ^ Z.of_nat prec)%Z in
  if (0 <=? e)%Z then (n * 2 ^ e)%Z else round_half_even n (2 ^ (- e)).

Definition fixed (prec : nat) (neg : bool) (q : Z) : string :=
  (if neg then "-" else "")
  ++ d (q / 10 ^ Z.of_nat prec)
  ++ match prec with
     | O => ""
     | S _ => "." ++ padded prec (q mod 10 ^ Z.of_nat prec)
     end.

(** [%.<prec>f]: the shortest correctly rounded decimal with [prec]
    digits after the point; NaN and the infinities print as words. *)
Definition f (prec : nat) (x : float) : string :=
  match Prim2SF x with
  | S754_nan => "NaN"
  | S754_infinity false => "+Inf"
  | S754_infinity true => "-Inf"
  | S754_zero s => fixed prec s 0
  | S754_finite s m e => fixed prec s (scaled prec m e)
  end.

End Fmt.

(** ** Outcomes of a Go function that may panic

    [OutOfFuel] is an artefact of the embedding of loops and is shown
    unreachable where a function is claimed to return. *)

Inductive outcome (A : Type) : Type :=
| Returned (a : A)
| Panicked
| OutOfFuel.

Arguments Returned {A} a.
Arguments Panicked {A}.
Arguments OutOfFuel {A}.

(** ** formatBytes *)

Definition unit : Z := 1024.

(** The loop [for n := bytes / unit; n >= unit; n /= unit { div *= unit; exp++ }],
    started at its condition; [div] is an [int64], [exp] an [int]. *)
Fixpoint formatBytes_loop (fuel : nat) (n div exp : Z) : option (Z * Z) :=
  if n >=? unit then
    match fuel with
    | O => None
    | S fuel' =>
        formatBytes_loop fuel' (n / unit)
          (Int.wrap_int64 (div * unit)) (Int.wrap_int64 (exp + 1))
    end
  else Some (div, exp).

(** Indexing a string: [None] is Go's index-out-of-range panic. *)
Definition index (s : string) (i : Z) : option ascii :=
  if i <? 0 then None else String.get (Z.to_nat i) s.

Definition formatBytes_fuel : nat := 64.

Definition formatBytes (bytes : Z) : outcome string :=
  if bytes <? unit then Returned (Fmt.d bytes ++ " B")%string
  else
    match formatBytes_loop formatBytes_fuel (bytes / unit) unit 0 with
    | None => OutOfFuel
    | Some (div, exp) =>
        match index "KMGTPE" exp with
        | None => Panicked
        | Some u =>
            Returned (Fmt.f 1 (F64.of_Z bytes / F64.of_Z div)%float
                      ++ " " ++ Fmt.c u ++ "iB")%string
        end
    end.

Example formatBytes_0 : formatBytes 0 = Returned "0 B"%string.
Proof. vm_compute. reflexivity. Qed.

Example formatBytes_1023 : formatBytes 1023 = Returned "1023 B"%string.
Proof. vm_compute. reflexivity. Qed.

Example formatBytes_1024 : formatBytes 1024 = Returned "1.0 KiB"%string.
Proof. vm_compute. reflexivity. Qed.

Example formatBytes_1536 : formatBytes 1536 = Returned "1.5 KiB"%string.
Proof. vm_compute. reflexivity. Qed.

Example formatBytes_1MiB : formatBytes 1048576 = Returned "1.0 MiB"%string.
Proof. vm_compute. reflexivity. Qed.

Example formatBytes_max :
  formatBytes Int.uint64_max = Returned "16.0 EiB"%string.
Proof. vm_compute. reflexivity. Qed.

(** *** The loop of [formatBytes] *)

Section FormatBytesLoop.

Lemma pow1024_pos j : 0 <= j -> 0 < 1024 ^ j.
Proof. intros. apply Z.pow_pos_nonneg; lia. Qed.

Lemma pow1024_succ j : 0 <= j -> 1024 ^ (j + 1) = 1024 ^ j * 1024.
Proof. intros. rewrite Z.pow_add_r by lia. reflexivity. Qed.

(** A power of 1024 that a [uint64] reaches has exponent at most 6. *)
Lemma pow1024_uint64 j b :
  0 <= j -> 1024 ^ j <= b -> b < 2 ^ 64 -> j <= 6.
Proof.
  intros Hj Hle Hb.
  destruct (Z_le_gt_dec j 6) as [|Hgt]; [assumption|exfalso].
  assert (H7 : 1024 ^ 7 <= 1024 ^ j) by (apply Z.pow_le_mono_r; lia).
  change (1024 ^ 7) with 1180591620717411303424 in H7.
  change (2 ^ 64) with 18446744073709551616 in Hb.
  lia.
Qed.

Lemma pow1024_int64 j : 0 <= j <= 6 -> Int.is_int64 (1024 ^ j).
Proof.
  intros Hj. unfold Int.is_int64.
  assert (H6 : 1024 ^ j <= 1024 ^ 6) by (apply Z.pow_le_mono_r; lia).
  assert (H0 : 0 < 1024 ^ j) by (apply pow1024_pos; lia).
  change (1024 ^ 6) with 1152921504606846976 in H6.
  change (2 ^ 63) with 9223372036854775808.
  lia.
Qed.

Lemma formatBytes_loop_eq fuel n div exp :
  formatBytes_loop fuel n div exp =
  if n >=? unit then
    match fuel with
    | O => None
    | S fuel' =>
        formatBytes_loop fuel' (n / unit)
          (Int.wrap_int64 (div * unit)) (Int.wrap_int64 (exp + 1))
    end
  else Some (div, exp).
Proof. destruct fuel; reflexivity. Qed.

(** With [div = 1024^(j+1)], [exp = j] and [n = bytes / div], the loop
    stops at the exponent [k] that brackets [bytes]. *)
Lemma formatBytes_loop_spec fuel :
  forall j bytes,
    0 <= j ->
    bytes < 2 ^ 64 ->
    1024 ^ (j + 1) <= bytes ->
    5 <= j + Z.of_nat fuel ->
    exists k,
      j <= k <= 5 /\
      formatBytes_loop fuel (bytes / 1024 ^ (j + 1)) (1024 ^ (j + 1)) j
      = Some (1024 ^ (k + 1), k) /\
      1024 ^ (k + 1) <= bytes < 1024 ^ (k + 2).
Proof.
  induction fuel as [|fuel IH]; intros j bytes Hj Hb Hlo Hfuel.
  - (* no fuel left: [j] is already 5, so the loop is at its exit *)
    assert (Hj6 : j + 1 <= 6) by (apply (pow1024_uint64 _ bytes); lia).
    assert (j = 5) by lia. subst j.
    assert (Hn : bytes / 1024 ^ (5 + 1) < unit).
    { apply Z.div_lt_upper_bound; [apply pow1024_pos; lia|].
      change (1024 ^ (5 + 1) * unit) with (2 ^ 70).
      change (2 ^ 64) with 18446744073709551616 in Hb.
      change (2 ^ 70) with 1180591620717411303424. lia. }
    exists 5. split; [lia|]. split.
    + rewrite formatBytes_loop_eq.
      destruct (Z.geb_spec (bytes / 1024 ^ (5 + 1)) unit); [lia|reflexivity].
    + split; [assumption|].
      change (1024 ^ (5 + 2)) with 1180591620717411303424.
      change (2 ^ 64) with 18446744073709551616 in Hb. lia.
  - rewrite formatBytes_loop_eq.
    pose proof (pow1024_pos (j + 1) ltac:(lia)) as Hpos.
    destruct (Z.geb_spec (bytes / 1024 ^ (j + 1)) unit) as [Hge|Hlt].
    + (* one more iteration *)
      assert (Hlo' : 1024 ^ (j + 1 + 1) <= bytes).
      { rewrite (pow1024_succ (j + 1)) by lia.
        unfold unit in Hge.
        pose proof (Z.mul_div_le bytes (1024 ^ (j + 1)) Hpos). nia. }
      assert (Hj6 : j + 1 + 1 <= 6)
        by (apply (pow1024_uint64 _ bytes); lia).
      destruct (IH (j + 1) bytes ltac:(lia) Hb Hlo' ltac:(lia))
        as (k & Hk & Hloop & Hbr).
      exists k. split; [lia|]. split; [|assumption].
      unfold unit.
      rewrite Z.div_div by lia.
      rewrite <- (pow1024_succ (j + 1)) by lia.
      rewrite (Int.wrap_int64_small (1024 ^ (j + 1 + 1)))
        by (apply pow1024_int64; lia).
      rewrite (Int.wrap_int64_small (j + 1))
        by (unfold Int.is_int64; change (2 ^ 63) with 9223372036854775808; lia).
      exact Hloop.
    + (* exit *)
      assert (Hj6 : j + 1 <= 6) by (apply (pow1024_uint64 _ bytes); lia).
      exists j. split; [lia|]. split; [reflexivity|].
      split; [assumption|].
      replace (j + 2) with (j + 1 + 1) by lia.
      rewrite (pow1024_succ (j + 1)) by lia.
      unfold unit in Hlt.
      pose proof (Z.mod_pos_bound bytes (1024 ^ (j + 1)) Hpos).
      pose proof (Z.div_mod bytes (1024 ^ (j + 1)) ltac:(lia)). nia.
Qed.

(** The unit letters, by exponent. *)
Definition unit_letter (k : Z) : ascii :=
  nth (Z.to_nat k) ["K"; "M"; "G"; "T"; "P"; "E"]%char " "%char.

Lemma index_units k :
  0 <= k <= 5 -> index "KMGTPE" k = Some (unit_letter k).
Proof.
  intros Hk.
  assert (H : k = 0 \/ k = 1 \/ k = 2 \/ k = 3 \/ k = 4 \/ k = 5) by lia.
  repeat (destruct H as [H|H]; [subst k; reflexivity|]).
  subst k; reflexivity.
Qed.

(** [formatBytes] on the scaled branch, for any sufficient fuel. *)
Lemma formatBytes_scaled bytes :
  Int.is_uint64 bytes ->
  1024 <= bytes ->
  exists k,
    0 <= k <= 5 /\
    1024 ^ (k + 1) <= bytes < 1024 ^ (k + 2) /\
    formatBytes_loop formatBytes_fuel (bytes / unit) unit 0
    = Some (1024 ^ (k + 1), k) /\
    formatBytes bytes
    = Returned (Fmt.f 1 (F64.of_Z bytes / F64.of_Z (1024 ^ (k + 1)))%float
                ++ " " ++ Fmt.c (unit_letter k) ++ "iB")%string.
Proof.
  intros [H0 Hmax] Hge. unfold Int.uint64_max in Hmax.
  destruct (formatBytes_loop_spec formatBytes_fuel 0 bytes)
    as (k & Hk & Hloop & Hbr);
    [lia | lia | exact Hge | unfold formatBytes_fuel; lia |].
  change (1024 ^ (0 + 1)) with unit in Hloop.
  exists k. repeat split; try lia; try exact Hloop.
  unfold formatBytes.
  destruct (Z.ltb_spec bytes unit) as [Hlt|_]; [unfold unit in Hlt; lia|].
  rewrite Hloop, (index_units k) by lia.
  reflexivity.
Qed.

End FormatBytesLoop.

(** ** Data model *)

(** A decoded JSON value of a histogram ([interface{}]): only numbers are
    ever printed. *)
Inductive jvalue : Type :=
| JNumber (x : float)
| JOther.

Record Input : Type := {
  ID : string;
  Type_ : string;
  Device : string;
  Packets : Z;
  Bytes : Z;
  Events : Z;
  Active : bool;
  ArrivalPeriod_Histogram : list (string * jvalue);
  ProcessingTime_Histogram : list (string * jvalue);
  Throughput_Bytes : float;
  Throughput_Events : float;
  Files : Z
}.

Record Module_ : Type := {
  Name : string;
  Enabled : bool;
  Errors : Z
}.

(** [FilebeatStats], its nested anonymous structs flattened: a field is
    named by its path. [Timestamp] is an instant of the local clock. *)
Record FilebeatStats : Type := {
  Timestamp : Z;
  Beat_CPU_System_Ticks : Z;
  Beat_CPU_System_Time_MS : Z;
  Beat_CPU_Total_Ticks : Z;
  Beat_CPU_Total_Time_MS : Z;
  Beat_CPU_Total_Value : Z;
  Beat_CPU_User_Ticks : Z;
  Beat_CPU_User_Time_MS : Z;
  Beat_Memstats_MemoryAlloc : Z;
  Beat_Memstats_RSS : Z;
  Beat_Info_Uptime_MS : Z;
  Libbeat_Pipeline_Queue_Filled_Events : Z;
  Libbeat_Pipeline_Queue_MaxEvents : Z;
  Libbeat_Pipeline_Events_Total : Z;
  Libbeat_Pipeline_Events_Dropped : Z;
  Libbeat_Pipeline_Events_Failed : Z;
  Libbeat_Pipeline_Events_Filtered : Z;
  Filebeat_Harvester_Running : Z;
  Filebeat_Harvester_Open : Z;
  Filebeat_Harvester_Closed : Z;
  Filebeat_Harvester_Started : Z;
  Filebeat_Harvester_Terminated : Z;
  Filebeat_Inputs : list Input;
  Filebeat_Modules_List : list Module_;
  System_Load_Norm_Load1 : float;
  System_Load_Norm_Load5 : float;
  System_Load_Norm_Load15 : float
}.

(** [stats.Timestamp = t] *)
Definition set_Timestamp (t : Z) (s : FilebeatStats) : FilebeatStats :=
  {| Timestamp := t;
     Beat_CPU_System_Ticks := Beat_CPU_System_Ticks s;
     Beat_CPU_System_Time_MS := Beat_CPU_System_Time_MS s;
     Beat_CPU_Total_Ticks := Beat_CPU_Total_Ticks s;
     Beat_CPU_Total_Time_MS := Beat_CPU_Total_Time_MS s;
     Beat_CPU_Total_Value := Beat_CPU_Total_Value s;
     Beat_CPU_User_Ticks := Beat_CPU_User_Ticks s;
     Beat_CPU_User_Time_MS := Beat_CPU_User_Time_MS s;
     Beat_Memstats_MemoryAlloc := Beat_Memstats_MemoryAlloc s;
     Beat_Memstats_RSS := Beat_Memstats_RSS s;
     Beat_Info_Uptime_MS := Beat_Info_Uptime_MS s;
     Libbeat_Pipeline_Queue_Filled_Events := Libbeat_Pipeline_Queue_Filled_Events s;
     Libbeat_Pipeline_Queue_MaxEvents := Libbeat_Pipeline_Queue_MaxEvents s;
     Libbeat_Pipeline_Events_Total := Libbeat_Pipeline_Events_Total s;
     Libbeat_Pipeline_Events_Dropped := Libbeat_Pipeline_Events_Dropped s;
     Libbeat_Pipeline_Events_Failed := Libbeat_Pipeline_Events_Failed s;
     Libbeat_Pipeline_Events_Filtered := Libbeat_Pipeline_Events_Filtered s;
     Filebeat_Harvester_Running := Filebeat_Harvester_Running s;
     Filebeat_Harvester_Open := Filebeat_Harvester_Open s;
     Filebeat_Harvester_Closed := Filebeat_Harvester_Closed s;
     Filebeat_Harvester_Started := Filebeat_Harvester_Started s;
     Filebeat_Harvester_Terminated := Filebeat_Harvester_Terminated s;
     Filebeat_Inputs := Filebeat_Inputs s;
     Filebeat_Modules_List := Filebeat_Modules_List s;
     System_Load_Norm_Load1 := System_Load_Norm_Load1 s;
     System_Load_Norm_Load5 := System_Load_Norm_Load5 s;
     System_Load_Norm_Load15 := System_Load_Norm_Load15 s |}.

(** [stats.Filebeat.Inputs = inputs] *)
Definition set_Filebeat_Inputs (inputs : list Input) (s : FilebeatStats)
  : FilebeatStats :=
  {| Timestamp := Timestamp s;
     Beat_CPU_System_Ticks := Beat_CPU_System_Ticks s;
     Beat_CPU_System_Time_MS := Beat_CPU_System_Time_MS s;
     Beat_CPU_Total_Ticks := Beat_CPU_Total_Ticks s;
     Beat_CPU_Total_Time_MS := Beat_CPU_Total_Time_MS s;
     Beat_CPU_Total_Value := Beat_CPU_Total_Value s;
     Beat_CPU_User_Ticks := Beat_CPU_User_Ticks s;
     Beat_CPU_User_Time_MS := Beat_CPU_User_Time_MS s;
     Beat_Memstats_MemoryAlloc := Beat_Memstats_MemoryAlloc s;
     Beat_Memstats_RSS := Beat_Memstats_RSS s;
     Beat_Info_Uptime_MS := Beat_Info_Uptime_MS s;
     Libbeat_Pipeline_Queue_Filled_Events := Libbeat_Pipeline_Queue_Filled_Events s;
     Libbeat_Pipeline_Queue_MaxEvents := Libbeat_Pipeline_Queue_MaxEvents s;
     Libbeat_Pipeline_Events_Total := Libbeat_Pipeline_Events_Total s;
     Libbeat_Pipeline_Events_Dropped := Libbeat_Pipeline_Events_Dropped s;
     Libbeat_Pipeline_Events_Failed := Libbeat_Pipeline_Events_Failed s;
     Libbeat_Pipeline_Events_Filtered := Libbeat_Pipeline_Events_Filtered s;
     Filebeat_Harvester_Running := Filebeat_Harvester_Running s;
     Filebeat_Harvester_Open := Filebeat_Harvester_Open s;
     Filebeat_Harvester_Closed := Filebeat_Harvester_Closed s;
     Filebeat_Harvester_Started := Filebeat_Harvester_Started s;
     Filebeat_Harvester_Terminated := Filebeat_Harvester_Terminated s;
     Filebeat_Inputs := inputs;
     Filebeat_Modules_List := Filebeat_Modules_List s;
     System_Load_Norm_Load1 := System_Load_Norm_Load1 s;
     System_Load_Norm_Load5 := System_Load_Norm_Load5 s;
     System_Load_Norm_Load15 := System_Load_Norm_Load15 s |}.

(** The zero value of [FilebeatStats] ([var stats FilebeatStats]). *)
Definition zero_stats : FilebeatStats :=
  {| Timestamp := 0;
     Beat_CPU_System_Ticks := 0; Beat_CPU_System_Time_MS := 0;
     Beat_CPU_Total_Ticks := 0; Beat_CPU_Total_Time_MS := 0;
     Beat_CPU_Total_Value := 0;
     Beat_CPU_User_Ticks := 0; Beat_CPU_User_Time_MS := 0;
     Beat_Memstats_MemoryAlloc := 0; Beat_Memstats_RSS := 0;
     Beat_Info_Uptime_MS := 0;
     Libbeat_Pipeline_Queue_Filled_Events := 0;
     Libbeat_Pipeline_Queue_MaxEvents := 0;
     Libbeat_Pipeline_Events_Total := 0;
     Libbeat_Pipeline_Events_Dropped := 0;
     Libbeat_Pipeline_Events_Failed := 0;
     Libbeat_Pipeline_Events_Filtered := 0;
     Filebeat_Harvester_Running := 0; Filebeat_Harvester_Open := 0;
     Filebeat_Harvester_Closed := 0; Filebeat_Harvester_Started := 0;
     Filebeat_Harvester_Terminated := 0;
     Filebeat_Inputs := [];
     Filebeat_Modules_List := [];
     System_Load_Norm_Load1 := 0%float;
     System_Load_Norm_Load5 := 0%float;
     System_Load_Norm_Load15 := 0%float |}.

(** The unsigned fields of a snapshot that the renderer computes with. *)
Definition well_formed (s : FilebeatStats) : Prop :=
  Int.is_uint64 (Beat_CPU_Total_Time_MS s) /\
  Int.is_uint64 (Beat_Info_Uptime_MS s) /\
  Int.is_uint64 (Beat_Memstats_RSS s) /\
  Int.is_uint64 (Libbeat_Pipeline_Queue_Filled_Events s) /\
  Int.is_uint64 (Libbeat_Pipeline_Queue_MaxEvents s).

(** ** The poll loop *)

Definition historySize : nat := 30.

(** A [*FilebeatStats] is an address of the heap; [fetchStats] allocates. *)
Definition ptr : Type := nat.

Definition heap : Type := list FilebeatStats.

Definition deref (h : heap) (p : ptr) : option FilebeatStats := nth_error h p.

Definition alloc (h : heap) (v : FilebeatStats) : ptr * heap :=
  (List.length h, h ++ [v]).

Fixpoint store (h : heap) (p : ptr) (v : FilebeatStats) : heap :=
  match h, p with
  | [], _ => []
  | _ :: h', O => v :: h'
  | x :: h', S p' => x :: store h' p' v
  end.

(** What an HTTP GET of the agent yields: no response at all, or a
    response with a status code and a body that decodes (or not) as JSON
    into the expected shape. *)
Inductive reply (A : Type) : Type :=
| NoResponse
| Response (status : Z) (body : option A).

Arguments NoResponse {A}.
Arguments Response {A} status body.

Inductive error : Type :=
| ErrGet
| ErrStatus (code : Z)
| ErrDecode.

Definition StatusOK : Z := 200.

(** [fetchStats]: the decoded snapshot is stamped with the local time and
    its address returned. *)
Definition fetchStats (r : reply FilebeatStats) (now : Z) (h : heap)
  : (ptr * heap) + error :=
  match r with
  | NoResponse => inr ErrGet
  | Response status body =>
      if negb (status =? StatusOK) then inr (ErrStatus status)
      else
        match body with
        | None => inr ErrDecode
        | Some stats => inl (alloc h (set_Timestamp now stats))
        end
  end.

(** [fetchInputs] *)
Definition fetchInputs (r : reply (list Input)) : list Input + error :=
  match r with
  | NoResponse => inr ErrGet
  | Response status body =>
      if negb (status =? StatusOK) then inr (ErrStatus status)
      else
        match body with
        | None => inr ErrDecode
        | Some inputs => inl inputs
        end
  end.

(** The observable actions of the worker. *)
Inductive action : Type :=
| LogStatsError (e : error)
| LogInputsError (e : error)
| QueueUpdateDraw
| Sleep.

(** The globals the worker writes, the heap they point into and the
    actions performed so far. *)
Record state : Type := {
  mem : heap;
  lastStats : option ptr;
  history : list ptr;
  actions : list action
}.

Definition initial : state :=
  {| mem := []; lastStats := None; history := []; actions := [] |}.

(** What one iteration of the loop meets: the two replies and the clock. *)
Record tick : Type := {
  stats_reply : reply FilebeatStats;
  inputs_reply : reply (list Input);
  now : Z
}.

(** [history = append(history, stats); if len(history) > historySize
    { history = history[1:] }] *)
Definition append_history (h : list ptr) (p : ptr) : list ptr :=
  let h' := h ++ [p] in
  if (historySize <? List.length h')%nat then tl h' else h'.

(** One iteration of the [for] loop of [dataWorker]. *)
Definition dataWorker_iter (t : tick) (s : state) : state :=
  match fetchStats (stats_reply t) (now t) (mem s) with
  | inr err =>
      {| mem := mem s;
         lastStats := lastStats s;
         history := history s;
         actions := actions s ++ [LogStatsError err; Sleep] |}
  | inl (stats, m) =>
      let '(m', logged) :=
        match fetchInputs (inputs_reply t) with
        | inr err => (m, [LogInputsError err])
        | inl inputs =>
            (match deref m stats with
             | Some v => store m stats (set_Filebeat_Inputs inputs v)
             | None => m
             end, [])
        end in
      {| mem := m';
         lastStats := Some stats;
         history := append_history (history s) stats;
         actions := actions s ++ logged ++ [QueueUpdateDraw; Sleep] |}
  end.

(** The loop over the successive ticks. *)
Definition dataWorker (ticks : list tick) (s : state) : state :=
  fold_left (fun s t => dataWorker_iter t s) ticks s.

(** ** [time.Duration] *)

Module Time.

Local Open Scope string_scope.

(** A [Duration] is an [int64] count of nanoseconds. *)
Definition Nanosecond : Z := 1.
Definition Microsecond : Z := 1000 * Nanosecond.
Definition Millisecond : Z := 1000 * Microsecond.
Definition Second : Z := 1000 * Millisecond.
Definition Minute : Z := 60 * Second.
Definition Hour : Z := 60 * Minute.

(** [time.Duration(x) * y] for a [uint64] [x]. *)
Definition Duration_mul (x y : Z) : Z :=
  Int.wrap_int64 (Int.wrap_int64 x * y).

(** [d.Truncate(m)]: [d] rounded toward zero to a multiple of [m]. *)
Definition Truncate (d m : Z) : Z :=
  if (m <=? 0)%Z then d else (d - Z.rem d m)%Z.

(** [fmtFrac]: the [prec] low decimal digits of [v] as a fraction, with
    trailing zeros (and then the point) omitted; returns the text placed
    before [buf] and [v / 10^prec]. *)
Fixpoint fmtFrac_loop (prec : nat) (v : Z) (print : bool) (buf : string)
  : string * Z * bool :=
  match prec with
  | O => (buf, v, print)
  | S prec' =>
      let digit := (v mod 10)%Z in
      let print' := print || negb (digit =? 0)%Z in
      fmtFrac_loop prec' (v / 10)%Z print'
        (if print' then Fmt.d digit ++ buf else buf)
  end.

Definition fmtFrac (buf : string) (v : Z) (prec : nat) : string * Z :=
  let '(buf', v', print) := fmtFrac_loop prec v false buf in
  (if print then "." ++ buf' else buf', v').

(** [fmtInt] *)
Definition fmtInt (buf : string) (v : Z) : string := Fmt.d v ++ buf.

(** [Duration.String], as in 72h3m0.5s: leading zero units are omitted,
    the seconds are always printed. *)
Definition String_ (d : Z) : string :=
  let u := Z.abs d in
  let neg := (d <? 0)%Z in
  let body :=
    if (u <? Second)%Z then
      if (u =? 0)%Z then "0s"
      else
        let '(suffix, prec) :=
          if (u <? Microsecond)%Z then ("ns", 0%nat)
          else if (u <? Millisecond)%Z then ("µs", 3%nat)
          else ("ms", 6%nat) in
        let '(buf, u1) := fmtFrac suffix u prec in
        fmtInt buf u1
    else
      let '(buf, u1) := fmtFrac "s" u 9 in
      let buf := fmtInt buf (u1 mod 60)%Z in
      let u2 := (u1 / 60)%Z in
      if (0 <? u2)%Z then
        let buf := fmtInt ("m" ++ buf) (u2 mod 60)%Z in
        let u3 := (u2 / 60)%Z in
        if (0 <? u3)%Z then fmtInt ("h" ++ buf) u3 else buf
      else buf in
  if neg then "-" ++ body else body.

End Time.

Example Duration_String_samples :
  Time.String_ (125 * Time.Minute) = "2h5m0s"%string /\
  Time.String_ Time.Hour = "1h0m0s"%string /\
  Time.String_ (72 * Time.Hour + 3 * Time.Minute + 500 * Time.Millisecond)
  = "72h3m0.5s"%string /\
  Time.String_ 1500000 = "1.5ms"%string /\
  Time.String_ 0 = "0s"%string /\
  Time.String_ (- 90 * Time.Second) = "-1m30s"%string.
Proof. vm_compute. repeat split. Qed.

(** ** [tview] widgets *)

Module Tview.

Inductive color : Type :=
| ColorWhite | ColorOrange | ColorGreen | ColorBlue | ColorYellow.

Inductive align : Type := AlignLeft | AlignCenter.

Record TableCell : Type := {
  Text : string;
  Color : color;
  Align : align
}.

Definition NewTableCell (text : string) : TableCell :=
  {| Text := text; Color := ColorWhite; Align := AlignLeft |}.

Definition SetTextColor (c : color) (cell : TableCell) : TableCell :=
  {| Text := Text cell; Color := c; Align := Align cell |}.

Definition SetAlign (a : align) (cell : TableCell) : TableCell :=
  {| Text := Text cell; Color := Color cell; Align := a |}.

Definition SetText (text : string) (cell : TableCell) : TableCell :=
  {| Text := text; Color := Color cell; Align := Align cell |}.

(** The content of a table: its rows of cells. *)
Definition Table : Type := list (list TableCell).

Definition NewTable : Table := [].

Definition GetRowCount (t : Table) : Z := Z.of_nat (List.length t).

Fixpoint remove_nth {A : Type} (n : nat) (l : list A) : list A :=
  match l, n with
  | [], _ => []
  | _ :: l', O => l'
  | x :: l', S n' => x :: remove_nth n' l'
  end.

(** [RemoveRow]: no effect when there is no such row. *)
Definition RemoveRow (row : Z) (t : Table) : Table :=
  if (row <? 0) || (GetRowCount t <=? row) then t
  else remove_nth (Z.to_nat row) t.

Fixpoint set_nth {A : Type} (pad : A) (n : nat) (x : A) (l : list A)
  : list A :=
  match n, l with
  | O, [] => [x]
  | O, _ :: l' => x :: l'
  | S n', [] => pad :: set_nth pad n' x []
  | S n', y :: l' => y :: set_nth pad n' x l'
  end.

(** [SetCell]: the table grows by empty rows, and the row by empty cells,
    up to the position written ([row] and [column] are not negative). *)
Definition SetCell (row column : Z) (cell : TableCell) (t : Table) : Table :=
  let r := Z.to_nat row in
  let old := nth r t [] in
  set_nth [] r (set_nth (NewTableCell "") (Z.to_nat column) cell old) t.

(** [GetCell(row, column).SetText(text)]: writes the cell in place; out
    of range the text lands in a throw-away cell. *)
Definition SetCellText (row column : Z) (text : string) (t : Table) : Table :=
  match nth_error t (Z.to_nat row) with
  | Some cells =>
      match nth_error cells (Z.to_nat column) with
      | Some cell => SetCell row column (SetText text cell) t
      | None => t
      end
  | None => t
  end.

Definition row_texts (cells : list TableCell) : list string :=
  map Text cells.

Definition texts (t : Table) : list (list string) := map row_texts t.

End Tview.

(** [count] copies of [s], one after the other. *)
Fixpoint Repeat_nat (s : string) (count : nat) : string :=
  match count with
  | O => EmptyString
  | S n => (s ++ Repeat_nat s n)%string
  end.

(** The largest allocation that the Go runtime accepts on linux/amd64,
    the build target: 48 address bits. *)
Definition maxAlloc : Z := 2 ^ 48.

(** [strings.Repeat]. A count of 0 gives the empty string; a negative
    count panics, and so does a count for which [len(s) * count] overflows
    [int]. The buffer of [len(s) * count] bytes is then allocated at once:
    beyond [maxAlloc] the allocation panics, and beyond [memory], the bytes
    that the runtime can obtain at the time of the call, the runtime
    aborts the program. [Panicked] stands for all of these. *)
Definition Repeat (memory : Z) (s : string) (count : Z) : outcome string :=
  if count =? 0 then Returned EmptyString
  else if count <? 0 then Panicked
  else
    let n := Z.of_nat (String.length s) * count in
    if negb (Int.in_int64 n) then Panicked
    else if (maxAlloc <? n) || (memory <? n) then Panicked
    else Returned (Repeat_nat s (Z.to_nat count)).

(** ** The renderer *)

Section Renderer.

Local Open Scope string_scope.

(** The platform's result of [int(f)] for an [f] outside [int]. *)
Variable unrepresentable : float -> Z.

(** The bytes that the runtime can obtain for a new string. *)
Variable memory : Z.

(** The widgets that [initUI] lays out, by role rather than by their
    position in the layout tree. *)
Record UI : Type := {
  systemPanel : Tview.Table;
  queuePanel : string;
  harvesterChart : string;
  inputsTable : Tview.Table;
  modulesWidget : list string
}.

Definition addMetricRow (row : Z) (label value : string)
  (c : Tview.color) (table : Tview.Table) : Tview.Table :=
  Tview.SetCell row 1 (Tview.SetTextColor c (Tview.NewTableCell value))
    (Tview.SetCell row 0
       (Tview.SetTextColor Tview.ColorWhite (Tview.NewTableCell label)) table).

Definition createSystemPanel : Tview.Table :=
  addMetricRow 3 "Load Avg:" "0.00 0.00 0.00" Tview.ColorYellow
    (addMetricRow 2 "Uptime:" "0h 0m" Tview.ColorBlue
       (addMetricRow 1 "Memoria RSS:" "0.0 MB" Tview.ColorGreen
          (addMetricRow 0 "CPU Total:" "0.0%" Tview.ColorOrange
             Tview.NewTable))).

Definition createQueuePanel : string :=
  "[green]0/0 [white]| [gray]....................".

Definition createHarvesterChart : string := "Active: 0 | Open Files: 0".

Definition headers : list string :=
  ["Type"; "Active"; "Events"; "Throughput"; "Files"].

Fixpoint setHeaders (col : Z) (hs : list string) (table : Tview.Table)
  : Tview.Table :=
  match hs with
  | [] => table
  | h :: hs' =>
      setHeaders (col + 1) hs'
        (Tview.SetCell 0 col
           (Tview.SetAlign Tview.AlignCenter
              (Tview.SetTextColor Tview.ColorYellow (Tview.NewTableCell h)))
           table)
  end.

Definition createInputsTable : Tview.Table :=
  setHeaders 0 headers Tview.NewTable.

Definition createModulesWidget : list string := ["Loading..."].

Definition initUI : UI :=
  {| systemPanel := createSystemPanel;
     queuePanel := createQueuePanel;
     harvesterChart := createHarvesterChart;
     inputsTable := createInputsTable;
     modulesWidget := createModulesWidget |}.

(** *** updateSystemMetrics *)

Definition cpuPercent (totalMs uptimeMs : Z) : float :=
  (F64.of_Z totalMs / F64.of_Z uptimeMs * 100)%float.

Definition rssMB (rss : Z) : float :=
  (F64.of_Z rss / 1024 / 1024)%float.

Definition uptime (uptimeMs : Z) : Z :=
  Time.Duration_mul uptimeMs Time.Millisecond.

Definition cpuText (st : FilebeatStats) : string :=
  Fmt.f 1 (cpuPercent (Beat_CPU_Total_Time_MS st) (Beat_Info_Uptime_MS st))
  ++ "%".

Definition rssText (st : FilebeatStats) : string :=
  Fmt.f 1 (rssMB (Beat_Memstats_RSS st)) ++ " MB".

Definition uptimeText (st : FilebeatStats) : string :=
  Time.String_ (Time.Truncate (uptime (Beat_Info_Uptime_MS st)) Time.Minute).

Definition loadText (st : FilebeatStats) : string :=
  Fmt.f 2 (System_Load_Norm_Load1 st) ++ " "
  ++ Fmt.f 2 (System_Load_Norm_Load5 st) ++ " "
  ++ Fmt.f 2 (System_Load_Norm_Load15 st).

Definition updateSystemMetrics (last : option FilebeatStats)
  (panel : Tview.Table) : Tview.Table :=
  match last with
  | Some st =>
      Tview.SetCellText 3 1 (loadText st)
        (Tview.SetCellText 2 1 (uptimeText st)
           (Tview.SetCellText 1 1 (rssText st)
              (Tview.SetCellText 0 1 (cpuText st) panel)))
  | None => panel
  end.

(** *** updateHarvesters *)

Definition updateHarvesters (last : option FilebeatStats) (view : string)
  : string :=
  match last with
  | Some st =>
      "Active: " ++ Fmt.d (Filebeat_Harvester_Running st)
      ++ " | Open Files: " ++ Fmt.d (Filebeat_Harvester_Open st)
  | None => "Active: 0 | Open Files: 0"
  end.

(** *** updateQueue *)

Definition queuePercent (filled maxEvents : Z) : float :=
  if (0 <? maxEvents)%Z
  then (F64.of_Z filled / F64.of_Z maxEvents * 100)%float
  else 0%float.

Definition queueBars (filled maxEvents : Z) : Z :=
  let bars := F64.to_int unrepresentable (queuePercent filled maxEvents / 5) in
  if (bars <? 0)%Z then 0%Z else bars.

Definition block : string := "█".

(** The arguments of [fmt.Fprintf] are evaluated first: a panic of
    [strings.Repeat] is a panic of the update. *)
Definition queueText (filled maxEvents : Z) : outcome string :=
  match Repeat memory block (queueBars filled maxEvents) with
  | Returned bar =>
      Returned ("[green]" ++ Fmt.d filled ++ "/" ++ Fmt.d maxEvents
                ++ " [white]| " ++ bar)
  | Panicked => Panicked
  | OutOfFuel => OutOfFuel
  end.

Definition updateQueue (last : option FilebeatStats) (view : string)
  : outcome string :=
  match last with
  | Some st =>
      queueText (Libbeat_Pipeline_Queue_Filled_Events st)
                (Libbeat_Pipeline_Queue_MaxEvents st)
  | None => Returned "[green]0/0 [white]| [gray]...................."
  end.

(** *** updateInputs *)

(** [for row := 1; row < table.GetRowCount(); row++ { table.RemoveRow(row) }],
    started at its condition. *)
Fixpoint removeRows_loop (fuel : nat) (row : Z) (table : Tview.Table)
  : option Tview.Table :=
  if (row <? Tview.GetRowCount table)%Z then
    match fuel with
    | O => None
    | S fuel' =>
        removeRows_loop fuel' (row + 1)%Z (Tview.RemoveRow row table)
    end
  else Some table.

Definition setInputRow (i : Z) (input : Input) (table : Tview.Table)
  : Tview.Table :=
  let white s := Tview.SetTextColor Tview.ColorWhite (Tview.NewTableCell s) in
  Tview.SetCell (i + 1) 4 (white (Fmt.d (Files input)))
    (Tview.SetCell (i + 1) 3 (white (Fmt.f 2 (Throughput_Bytes input)))
       (Tview.SetCell (i + 1) 2 (white (Fmt.d (Events input)))
          (Tview.SetCell (i + 1) 1 (white (Fmt.t (Active input)))
             (Tview.SetCell (i + 1) 0 (white (Type_ input)) table)))).

(** [for i, input := range inputs { ... }] *)
Fixpoint setInputRows (i : Z) (inputs : list Input) (table : Tview.Table)
  : Tview.Table :=
  match inputs with
  | [] => table
  | input :: rest => setInputRows (i + 1)%Z rest (setInputRow i input table)
  end.

Definition updateInputs (last : option FilebeatStats) (table : Tview.Table)
  : outcome Tview.Table :=
  match removeRows_loop (List.length table) 1 table with
  | None => OutOfFuel
  | Some cleared =>
      match last with
      | Some st => Returned (setInputRows 0 (Filebeat_Inputs st) cleared)
      | None => Returned cleared
      end
  end.

(** *** updateModules *)

Definition moduleItem (m : Module_) : string :=
  (if Enabled m then "[green]✓" else "[red]✗")
  ++ " " ++ Name m ++ " (" ++ Fmt.d (Errors m) ++ " errors)".

Definition updateModules (last : option FilebeatStats) (list_ : list string)
  : list string :=
  match last with
  | Some st => map moduleItem (Filebeat_Modules_List st)
  | None => []
  end.

(** *** updateUI *)

(** The snapshot that [lastStats] points to. *)
Definition last_snapshot (s : state) : option FilebeatStats :=
  match lastStats s with
  | Some p => deref (mem s) p
  | None => None
  end.

(** The five updates run in the order of the source: a panic of
    [updateQueue] ends the render before the inputs table is touched. *)
Definition updateUI (s : state) (ui : UI) : outcome UI :=
  match lastStats s with
  | None => Returned ui
  | Some _ =>
      let last := last_snapshot s in
      let panel := updateSystemMetrics last (systemPanel ui) in
      match updateQueue last (queuePanel ui) with
      | Returned queue =>
          let chart := updateHarvesters last (harvesterChart ui) in
          match updateInputs last (inputsTable ui) with
          | Returned table =>
              Returned
                {| systemPanel := panel;
                   queuePanel := queue;
                   harvesterChart := chart;
                   inputsTable := table;
                   modulesWidget := updateModules last (modulesWidget ui) |}
          | Panicked => Panicked
          | OutOfFuel => OutOfFuel
          end
      | Panicked => Panicked
      | OutOfFuel => OutOfFuel
      end
  end.

End Renderer.

(** * Properties of the poll loop *)

Section ListFacts.

Context {A : Type}.

(** The last [n] elements of a list, in order. *)
Definition lastn (n : nat) (l : list A) : list A :=
  skipn (List.length l - n) l.

Lemma tl_skipn (k : nat) (l : list A) : tl (skipn k l) = skipn (S k) l.
Proof.
  revert l. induction k as [|k IH]; intros [|x l]; try reflexivity.
  simpl skipn at 1. rewrite IH. reflexivity.
Qed.

Lemma tl_app_nonempty (l : list A) (x : A) :
  l <> [] -> tl (l ++ [x]) = tl l ++ [x].
Proof. destruct l; [congruence|reflexivity]. Qed.

Lemma lastn_length (n : nat) (l : list A) :
  List.length (lastn n l) = Nat.min n (List.length l).
Proof. unfold lastn. rewrite length_skipn. lia. Qed.

Lemma lastn_short (n : nat) (l : list A) :
  (List.length l <= n)%nat -> lastn n l = l.
Proof.
  intros H. unfold lastn.
  replace (List.length l - n)%nat with 0%nat by lia. reflexivity.
Qed.

Lemma lastn_snoc_long (n : nat) (l : list A) (x : A) :
  (n <= List.length l)%nat ->
  lastn n (l ++ [x]) = tl (lastn n l ++ [x]).
Proof.
  intros H. unfold lastn.
  rewrite length_app. simpl List.length.
  replace (List.length l + 1 - n)%nat with (S (List.length l - n)) by lia.
  destruct (Nat.eq_dec n 0) as [->|Hn].
  - rewrite Nat.sub_0_r, skipn_all.
    rewrite skipn_all2 by (rewrite length_app; simpl; lia).
    reflexivity.
  - rewrite tl_app_nonempty.
    + rewrite tl_skipn, skipn_app.
      replace (S (List.length l - n) - List.length l)%nat with 0%nat by lia.
      reflexivity.
    + intros Hnil. apply (f_equal (@List.length A)) in Hnil.
      rewrite length_skipn in Hnil. simpl in Hnil. lia.
Qed.

Lemma In_lastn (n : nat) (l : list A) (x : A) : In x (lastn n l) -> In x l.
Proof.
  unfold lastn. intros H.
  rewrite <- (firstn_skipn (List.length l - n) l).
  apply in_or_app. right. exact H.
Qed.

Lemma NoDup_lastn (n : nat) (l : list A) : NoDup l -> NoDup (lastn n l).
Proof.
  unfold lastn. intros H.
  rewrite <- (firstn_skipn (List.length l - n) l) in H.
  exact (NoDup_app_remove_l _ _ H).
Qed.

End ListFacts.

Section PollLoop.

Lemma append_history_eq (h : list ptr) (p : ptr) :
  append_history h p =
  if (List.length h <? historySize)%nat then h ++ [p] else tl (h ++ [p]).
Proof.
  unfold append_history. rewrite length_app. simpl List.length.
  destruct (Nat.ltb_spec historySize (List.length h + 1));
    destruct (Nat.ltb_spec (List.length h) historySize);
    try reflexivity; lia.
Qed.

(** Appending keeps the last [historySize] entries. *)
Lemma append_history_lastn (l : list ptr) (p : ptr) :
  append_history (lastn historySize l) p = lastn historySize (l ++ [p]).
Proof.
  rewrite append_history_eq, lastn_length.
  destruct (Nat.ltb_spec (Nat.min historySize (List.length l)) historySize)
    as [Hlt|Hge].
  - rewrite (lastn_short historySize l) by lia.
    rewrite lastn_short; [reflexivity|].
    rewrite length_app. simpl. lia.
  - rewrite lastn_snoc_long by lia. reflexivity.
Qed.

(** Appended to the empty history, any sequence leaves its last
    [historySize] entries. *)
Lemma fold_append_history (ps : list ptr) :
  fold_left append_history ps [] = lastn historySize ps.
Proof.
  induction ps as [|p ps IH] using rev_ind; [reflexivity|].
  rewrite fold_left_app. simpl. rewrite IH.
  apply append_history_lastn.
Qed.

Lemma store_length (h : heap) (p : ptr) (v : FilebeatStats) :
  List.length (store h p v) = List.length h.
Proof.
  revert p. induction h as [|x h IH]; intros [|p]; simpl; auto.
Qed.

Lemma store_other (h : heap) (p q : ptr) (v : FilebeatStats) :
  p <> q -> deref (store h p v) q = deref h q.
Proof.
  unfold deref. revert p q.
  induction h as [|x h IH]; intros [|p] [|q] Hne; simpl; auto; congruence.
Qed.

Lemma store_same (h : heap) (p : ptr) (v : FilebeatStats) :
  (p < List.length h)%nat -> deref (store h p v) p = Some v.
Proof.
  unfold deref. revert p.
  induction h as [|x h IH]; intros [|p] Hlt; simpl in *;
    try lia; auto.
  apply IH. lia.
Qed.

Lemma deref_alloc_new (h : heap) (v : FilebeatStats) :
  deref (h ++ [v]) (List.length h) = Some v.
Proof.
  unfold deref. rewrite nth_error_app2 by lia.
  rewrite Nat.sub_diag. reflexivity.
Qed.

Lemma deref_alloc_old (h : heap) (v : FilebeatStats) (q : ptr) :
  (q < List.length h)%nat -> deref (h ++ [v]) q = deref h q.
Proof. intros H. unfold deref. apply nth_error_app1. exact H. Qed.

Lemma dataWorker_snoc (ticks : list tick) (t : tick) (s : state) :
  dataWorker (ticks ++ [t]) s = dataWorker_iter t (dataWorker ticks s).
Proof. unfold dataWorker. rewrite fold_left_app. reflexivity. Qed.

(** A failing stats fetch, by its three causes. *)
Definition stats_fetch_fails (r : reply FilebeatStats) : Prop :=
  r = NoResponse \/
  (exists status body, r = Response status body /\ status <> StatusOK) \/
  r = Response StatusOK None.

Definition inputs_fetch_fails (r : reply (list Input)) : Prop :=
  r = NoResponse \/
  (exists status body, r = Response status body /\ status <> StatusOK) \/
  r = Response StatusOK None.

Lemma fetchStats_fails r now h :
  stats_fetch_fails r -> exists e, fetchStats r now h = inr e.
Proof.
  intros [->|[(status & body & -> & Hne)| ->]]; simpl.
  - eauto.
  - destruct (Z.eqb_spec status StatusOK); [contradiction|]. simpl. eauto.
  - eauto.
Qed.

Lemma fetchStats_fails_iff r now h :
  stats_fetch_fails r <-> exists e, fetchStats r now h = inr e.
Proof.
  split; [apply fetchStats_fails|].
  intros [e He]. destruct r as [|status body]; [left; reflexivity|].
  simpl in He. destruct (Z.eqb_spec status StatusOK) as [->|Hne].
  - destruct body; simpl in He; [discriminate|]. right. right. reflexivity.
  - right. left. eauto.
Qed.

Lemma fetchInputs_fails r :
  inputs_fetch_fails r -> exists e, fetchInputs r = inr e.
Proof.
  intros [->|[(status & body & -> & Hne)| ->]]; simpl.
  - eauto.
  - destruct (Z.eqb_spec status StatusOK); [contradiction|]. simpl. eauto.
  - eauto.
Qed.

Lemma fetchStats_ok r now h p m :
  fetchStats r now h = inl (p, m) ->
  exists stats,
    r = Response StatusOK (Some stats) /\
    p = List.length h /\ m = h ++ [set_Timestamp now stats].
Proof.
  destruct r as [|status body]; simpl; [discriminate|].
  destruct (Z.eqb_spec status StatusOK) as [->|]; simpl; [|discriminate].
  destruct body as [stats|]; [|discriminate].
  unfold alloc. intros H. injection H as <- <-. eauto.
Qed.

(** What a successful stats fetch does to the globals. *)
Lemma dataWorker_iter_ok t s p m :
  fetchStats (stats_reply t) (now t) (mem s) = inl (p, m) ->
  lastStats (dataWorker_iter t s) = Some p /\
  history (dataWorker_iter t s) = append_history (history s) p /\
  List.length (mem (dataWorker_iter t s)) = S (List.length (mem s)).
Proof.
  intros Hf. unfold dataWorker_iter. rewrite Hf.
  destruct (fetchStats_ok _ _ _ _ _ Hf) as (stats & _ & -> & ->).
  destruct (fetchInputs (inputs_reply t)) as [inputs|err]; simpl.
  - repeat split.
    rewrite deref_alloc_new, store_length, length_app. simpl. lia.
  - repeat split. rewrite length_app. simpl. lia.
Qed.

Lemma dataWorker_iter_err t s e :
  fetchStats (stats_reply t) (now t) (mem s) = inr e ->
  dataWorker_iter t s =
  {| mem := mem s; lastStats := lastStats s; history := history s;
     actions := actions s ++ [LogStatsError e; Sleep] |}.
Proof. intros Hf. unfold dataWorker_iter. rewrite Hf. reflexivity. Qed.

(** The history of a run holds the last [historySize] addresses
    allocated, oldest first. *)
Lemma history_of_run (ticks : list tick) :
  let s := dataWorker ticks initial in
  history s = lastn historySize (seq 0 (List.length (mem s))).
Proof.
  induction ticks as [|t ticks IH] using rev_ind; [reflexivity|].
  simpl in *. rewrite dataWorker_snoc.
  set (s := dataWorker ticks initial) in *.
  destruct (fetchStats (stats_reply t) (now t) (mem s))
    as [[p m]|e] eqn:Hf.
  - destruct (dataWorker_iter_ok _ _ _ _ Hf) as (_ & -> & ->).
    destruct (fetchStats_ok _ _ _ _ _ Hf) as (_ & _ & -> & _).
    rewrite IH, seq_S. simpl. apply append_history_lastn.
  - rewrite (dataWorker_iter_err _ _ _ Hf). simpl. exact IH.
Qed.

End PollLoop.

(** ** Sample snapshots and ticks *)

Definition sample_input (type_ : string) (active : bool) (events : Z)
  (throughput : float) (files : Z) : Input :=
  {| ID := type_; Type_ := type_; Device := ""; Packets := 0; Bytes := 0;
     Events := events; Active := active;
     ArrivalPeriod_Histogram := []; ProcessingTime_Histogram := [];
     Throughput_Bytes := throughput; Throughput_Events := 0%float;
     Files := files |}.

Definition sample_stats (totalMs uptimeMs filled maxEvents : Z)
  (inputs : list Input) : FilebeatStats :=
  {| Timestamp := 0;
     Beat_CPU_System_Ticks := 0; Beat_CPU_System_Time_MS := 0;
     Beat_CPU_Total_Ticks := 0; Beat_CPU_Total_Time_MS := totalMs;
     Beat_CPU_Total_Value := 0;
     Beat_CPU_User_Ticks := 0; Beat_CPU_User_Time_MS := 0;
     Beat_Memstats_MemoryAlloc := 0; Beat_Memstats_RSS := 0;
     Beat_Info_Uptime_MS := uptimeMs;
     Libbeat_Pipeline_Queue_Filled_Events := filled;
     Libbeat_Pipeline_Queue_MaxEvents := maxEvents;
     Libbeat_Pipeline_Events_Total := 0;
     Libbeat_Pipeline_Events_Dropped := 0;
     Libbeat_Pipeline_Events_Failed := 0;
     Libbeat_Pipeline_Events_Filtered := 0;
     Filebeat_Harvester_Running := 3; Filebeat_Harvester_Open := 7;
     Filebeat_Harvester_Closed := 0; Filebeat_Harvester_Started := 0;
     Filebeat_Harvester_Terminated := 0;
     Filebeat_Inputs := inputs;
     Filebeat_Modules_List := [];
     System_Load_Norm_Load1 := 0%float;
     System_Load_Norm_Load5 := 0%float;
     System_Load_Norm_Load15 := 0%float |}.

(** A tick on which both fetches succeed. *)
Definition good_tick (n : Z) : tick :=
  {| stats_reply := Response 200 (Some (sample_stats 500 10000 50 1000 []));
     inputs_reply := Response 200 (Some [sample_input "log" true n 0%float 1]);
     now := n |}.

(** A tick on which the agent answers 503 to the stats request. *)
Definition bad_stats_tick : tick :=
  {| stats_reply := Response 503 None;
     inputs_reply := Response 200 (Some []);
     now := 0 |}.

(** A tick on which only the inputs request fails. *)
Definition bad_inputs_tick : tick :=
  {| stats_reply := Response 200 (Some (sample_stats 500 10000 50 1000 []));
     inputs_reply := NoResponse;
     now := 77 |}.

Definition good_ticks (n : nat) : list tick :=
  map (fun i => good_tick (Z.of_nat i)) (seq 0 n).

Example history_after_30 :
  history (dataWorker (good_ticks 30) initial) = seq 0 30.
Proof. vm_compute. reflexivity. Qed.

Example history_after_31 :
  history (dataWorker (good_ticks 31) initial) = seq 1 30.
Proof. vm_compute. reflexivity. Qed.

Example history_with_failures :
  history (dataWorker (good_ticks 2 ++ [bad_stats_tick; bad_inputs_tick])
             initial) = [0; 1; 2]%nat.
Proof. vm_compute. reflexivity. Qed.

(** ** Bounded history and failed fetches *)

(** C1. Along every run of the poll loop the history holds at most 30
    snapshots, all distinct; a cycle whose stats fetch succeeds appends the
    new snapshot at the end and, when the history was full (the 31st
    append), drops exactly the first entry, the others keeping their
    order; a failed cycle leaves the history alone. *)
Theorem history_bounded_fifo (ticks : list tick) (t : tick) :
  let s := dataWorker ticks initial in
  let s' := dataWorker_iter t s in
  (List.length (history s) <= 30)%nat /\
  (List.length (history s') <= 30)%nat /\
  NoDup (history s) /\
  match fetchStats (stats_reply t) (now t) (mem s) with
  | inl (p, _) =>
      ~ In p (history s) /\
      history s' =
      (if (List.length (history s) <? 30)%nat
       then history s else tl (history s)) ++ [p]
  | inr _ => history s' = history s
  end.
Proof.
  intros s s'.
  pose proof (history_of_run ticks) as Hs. fold s in Hs. simpl in Hs.
  pose proof (history_of_run (ticks ++ [t])) as Hs'.
  simpl in Hs'. rewrite dataWorker_snoc in Hs'. fold s s' in Hs'.
  split; [rewrite Hs, lastn_length; unfold historySize; lia|].
  split; [rewrite Hs', lastn_length; unfold historySize; lia|].
  split; [rewrite Hs; apply NoDup_lastn, seq_NoDup|].
  destruct (fetchStats (stats_reply t) (now t) (mem s)) as [[p m]|e] eqn:Hf.
  - destruct (dataWorker_iter_ok _ _ _ _ Hf) as (_ & Hh & _).
    destruct (fetchStats_ok _ _ _ _ _ Hf) as (_ & _ & -> & _).
    split.
    + rewrite Hs. intros Hin. apply In_lastn, in_seq in Hin. lia.
    + fold s' in Hh. rewrite Hh, append_history_eq.
      change historySize with 30%nat.
      destruct (Nat.ltb_spec (List.length (history s)) 30) as [Hlt|Hge];
        [reflexivity|].
      apply tl_app_nonempty. intros Hnil. rewrite Hnil in Hge. simpl in Hge. lia.
  - unfold s'. rewrite (dataWorker_iter_err _ _ _ Hf). reflexivity.
Qed.

(** C3. A cycle whose stats fetch fails (no response, a status other than
    200, or a body that does not decode) leaves the heap, the last known
    snapshot and the history exactly as they were; it only logs the error
    and sleeps, and the loop goes on with the next tick. *)
Theorem failed_stats_fetch_keeps_state (t : tick) (s : state) :
  stats_fetch_fails (stats_reply t) ->
  let s' := dataWorker_iter t s in
  mem s' = mem s /\
  lastStats s' = lastStats s /\
  history s' = history s /\
  last_snapshot s' = last_snapshot s /\
  (exists e, actions s' = actions s ++ [LogStatsError e; Sleep]) /\
  forall rest, dataWorker (t :: rest) s = dataWorker rest s'.
Proof.
  intros Hfail s'.
  destruct (fetchStats_fails _ (now t) (mem s) Hfail) as [e He].
  assert (Hrest : forall rest, dataWorker (t :: rest) s = dataWorker rest s')
    by reflexivity.
  revert Hrest. unfold s'. rewrite (dataWorker_iter_err _ _ _ He).
  unfold last_snapshot. simpl. intros Hrest.
  repeat split; eauto.
Qed.

Lemma failed_stats_fetch_keeps_state_witness :
  let s := dataWorker (good_ticks 2) initial in
  stats_fetch_fails (stats_reply bad_stats_tick) /\
  mem (dataWorker_iter bad_stats_tick s) = mem s /\
  lastStats (dataWorker_iter bad_stats_tick s) = Some 1%nat /\
  history (dataWorker_iter bad_stats_tick s) = [0; 1]%nat.
Proof.
  assert (Hfail : stats_fetch_fails (stats_reply bad_stats_tick)).
  { right. left. exists 503, None. split; [reflexivity|discriminate]. }
  pose proof (failed_stats_fetch_keeps_state bad_stats_tick
                (dataWorker (good_ticks 2) initial) Hfail)
    as (Hm & Hl & Hh & _).
  split; [exact Hfail|].
  split; [exact Hm|].
  split; [rewrite Hl; reflexivity|rewrite Hh; reflexivity].
Defined.

(** C4. A cycle whose stats fetch succeeds and whose inputs fetch fails
    still allocates the stamped snapshot, appends it to the history and
    publishes it as the last known one; its inputs are those decoded from
    the stats payload; the snapshots already in the heap are untouched;
    the failure is only logged, and the redraw is queued. *)
Theorem failed_inputs_fetch_still_publishes
  (t : tick) (s : state) (stats : FilebeatStats) :
  stats_reply t = Response StatusOK (Some stats) ->
  inputs_fetch_fails (inputs_reply t) ->
  let s' := dataWorker_iter t s in
  let p := List.length (mem s) in
  lastStats s' = Some p /\
  last_snapshot s' = Some (set_Timestamp (now t) stats) /\
  option_map Filebeat_Inputs (last_snapshot s') = Some (Filebeat_Inputs stats) /\
  history s' = append_history (history s) p /\
  (forall q, (q < p)%nat -> deref (mem s') q = deref (mem s) q) /\
  exists e, actions s' = actions s ++ [LogInputsError e; QueueUpdateDraw; Sleep].
Proof.
  intros Hstats Hfail s' p.
  destruct (fetchInputs_fails _ Hfail) as [e He].
  unfold s', dataWorker_iter, last_snapshot.
  rewrite Hstats, He. simpl.
  rewrite deref_alloc_new. simpl.
  repeat split; eauto.
  intros q Hq. apply deref_alloc_old. exact Hq.
Qed.

Lemma failed_inputs_fetch_still_publishes_witness :
  let s := dataWorker (good_ticks 2) initial in
  let s' := dataWorker_iter bad_inputs_tick s in
  lastStats s' = Some 2%nat /\
  option_map Filebeat_Inputs (last_snapshot s') = Some [] /\
  option_map Timestamp (last_snapshot s') = Some 77 /\
  history s' = [0; 1; 2]%nat.
Proof.
  assert (Hfail : inputs_fetch_fails (inputs_reply bad_inputs_tick))
    by (left; reflexivity).
  pose proof (failed_inputs_fetch_still_publishes bad_inputs_tick
                (dataWorker (good_ticks 2) initial) _ eq_refl Hfail)
    as (Hl & Hs & Hi & Hh & _).
  split; [exact Hl|].
  split; [exact Hi|].
  split; [rewrite Hs; reflexivity|rewrite Hh; reflexivity].
Defined.

(** *** The published snapshot and the history *)

(** The link between the two globals: with no snapshot published the
    history is empty; otherwise its last entry is the published address,
    which is allocated. *)
Definition newest_published (s : state) : Prop :=
  match lastStats s with
  | None => history s = []
  | Some p =>
      (exists front, history s = front ++ [p]) /\
      (p < List.length (mem s))%nat
  end.

Lemma newest_published_initial : newest_published initial.
Proof. reflexivity. Qed.

Lemma append_history_last (h : list ptr) (p : ptr) :
  exists front, append_history h p = front ++ [p].
Proof.
  rewrite append_history_eq.
  destruct (List.length h <? historySize)%nat eqn:Hlen; [eauto|].
  destruct h as [|x h]; [discriminate Hlen|].
  exists h. reflexivity.
Qed.

(** Every iteration, failed or not, keeps the link. *)
Lemma newest_published_iter (t : tick) (s : state) :
  newest_published s -> newest_published (dataWorker_iter t s).
Proof.
  intros Hinv.
  destruct (fetchStats (stats_reply t) (now t) (mem s)) as [[p m]|e] eqn:Hf.
  - destruct (dataWorker_iter_ok _ _ _ _ Hf) as (Hl & Hh & Hm).
    destruct (fetchStats_ok _ _ _ _ _ Hf) as (_ & _ & -> & _).
    unfold newest_published. rewrite Hl, Hh, Hm.
    split; [apply append_history_last|lia].
  - rewrite (dataWorker_iter_err _ _ _ Hf).
    exact Hinv.
Qed.

Lemma newest_published_run (ticks : list tick) :
  newest_published (dataWorker ticks initial).
Proof.
  induction ticks as [|t ticks IH] using rev_ind.
  - apply newest_published_initial.
  - rewrite dataWorker_snoc. apply newest_published_iter, IH.
Qed.

(** C9. After every poll cycle of a run, failed or not, a non-nil
    [lastStats] is the last entry of the history, which is then not empty,
    and it points to an allocated snapshot. *)
Theorem lastStats_is_newest_history_entry (ticks : list tick) (p : ptr) :
  let s := dataWorker ticks initial in
  lastStats s = Some p ->
  history s <> [] /\
  List.last (history s) 0%nat = p /\
  (exists front, history s = front ++ [p]) /\
  last_snapshot s <> None.
Proof.
  intros s Hp.
  pose proof (newest_published_run ticks) as Hinv.
  fold s in Hinv. unfold newest_published in Hinv. rewrite Hp in Hinv.
  destruct Hinv as [[front Hfront] Hlt].
  split; [rewrite Hfront; intros H; destruct front; discriminate H|].
  split; [rewrite Hfront; apply last_last|].
  split; [eauto|].
  unfold last_snapshot, deref. rewrite Hp.
  apply nth_error_Some. exact Hlt.
Qed.

Lemma lastStats_is_newest_history_entry_witness :
  let s := dataWorker (good_ticks 31 ++ [bad_stats_tick]) initial in
  lastStats s = Some 30%nat /\
  List.last (history s) 0%nat = 30%nat.
Proof.
  assert (Hp : lastStats (dataWorker (good_ticks 31 ++ [bad_stats_tick]) initial)
               = Some 30%nat) by (vm_compute; reflexivity).
  split; [exact Hp|].
  exact (proj1 (proj2 (lastStats_is_newest_history_entry _ _ Hp))).
Defined.

(** * Properties of [formatBytes] *)

(** C6. On every [uint64], [formatBytes] prints values below 1024 as a
    plain count of bytes, and otherwise divides by the power of 1024 whose
    exponent [k+1] brackets the value (the integer quotient is then below
    1024), prints the float quotient with one decimal and the [k]-th
    letter of K, M, G, T, P, E followed by iB; the five sample values of
    the specification come out as stated. *)
Theorem formatBytes_binary_units (bytes : Z) :
  Int.is_uint64 bytes ->
  (bytes < 1024 -> formatBytes bytes = Returned (Fmt.d bytes ++ " B")%string) /\
  (1024 <= bytes ->
   exists k,
     0 <= k <= 5 /\
     1024 ^ (k + 1) <= bytes /\
     bytes / 1024 ^ (k + 1) < 1024 /\
     formatBytes bytes
     = Returned (Fmt.f 1 (F64.of_Z bytes / F64.of_Z (1024 ^ (k + 1)))%float
                 ++ " " ++ Fmt.c (unit_letter k) ++ "iB")%string) /\
  map unit_letter [0; 1; 2; 3; 4; 5] = ["K"; "M"; "G"; "T"; "P"; "E"]%char /\
  formatBytes 0 = Returned "0 B"%string /\
  formatBytes 1023 = Returned "1023 B"%string /\
  formatBytes 1024 = Returned "1.0 KiB"%string /\
  formatBytes 1048576 = Returned "1.0 MiB"%string /\
  formatBytes 1536 = Returned "1.5 KiB"%string.
Proof.
  intros Hu. split; [|split].
  - intros Hlt. unfold formatBytes.
    destruct (Z.ltb_spec bytes unit) as [_|Hge]; [reflexivity|].
    unfold unit in Hge. lia.
  - intros Hge.
    destruct (formatBytes_scaled bytes Hu Hge) as (k & Hk & [Hlo Hhi] & _ & Hfmt).
    exists k. split; [exact Hk|]. split; [exact Hlo|]. split; [|exact Hfmt].
    apply Z.div_lt_upper_bound; [apply pow1024_pos; lia|].
    replace (k + 2) with (k + 1 + 1) in Hhi by lia.
    rewrite (pow1024_succ (k + 1)) in Hhi by lia. lia.
  - split; [reflexivity|].
    split; [exact formatBytes_0|].
    split; [exact formatBytes_1023|].
    split; [exact formatBytes_1024|].
    split; [exact formatBytes_1MiB|exact formatBytes_1536].
Qed.

Lemma formatBytes_binary_units_witness :
  Int.is_uint64 1536 /\
  exists k,
    0 <= k <= 5 /\
    1024 ^ (k + 1) <= 1536 /\
    1536 / 1024 ^ (k + 1) < 1024 /\
    formatBytes 1536
    = Returned (Fmt.f 1 (F64.of_Z 1536 / F64.of_Z (1024 ^ (k + 1)))%float
                ++ " " ++ Fmt.c (unit_letter k) ++ "iB")%string.
Proof.
  assert (Hu : Int.is_uint64 1536)
    by (unfold Int.is_uint64, Int.uint64_max; lia).
  split; [exact Hu|].
  apply (proj1 (proj2 (formatBytes_binary_units 1536 Hu))). lia.
Defined.

(** C10. [formatBytes] returns on every [uint64]: with any fuel of at
    least 5 the loop ends, at an exponent between 0 and 5 and a divisor
    that fits [int64], so the index into KMGTPE is in bounds and nothing
    panics; below 1024 the integer branch is taken and prints the value
    itself. *)
Theorem formatBytes_total (bytes : Z) :
  Int.is_uint64 bytes ->
  (exists s, formatBytes bytes = Returned s) /\
  (forall fuel, (5 <= fuel)%nat ->
   exists div exp,
     formatBytes_loop fuel (bytes / unit) unit 0 = Some (div, exp) /\
     0 <= exp <= 5 /\
     Int.is_int64 div /\
     exists u, index "KMGTPE" exp = Some u) /\
  (bytes < 1024 -> formatBytes bytes = Returned (Fmt.d bytes ++ " B")%string).
Proof.
  intros Hu.
  destruct (Z_lt_ge_dec bytes 1024) as [Hlt|Hge].
  - assert (Hsmall : formatBytes bytes = Returned (Fmt.d bytes ++ " B")%string).
    { unfold formatBytes.
      destruct (Z.ltb_spec bytes unit) as [_|Hge]; [reflexivity|].
      unfold unit in Hge. lia. }
    split; [eauto|]. split; [|intros _; exact Hsmall].
    intros fuel _. exists unit, 0.
    destruct Hu as [H0 _].
    rewrite formatBytes_loop_eq.
    unfold unit at 1 2. rewrite Z.div_small by lia.
    split; [reflexivity|]. split; [lia|]. split.
    + unfold Int.is_int64, unit. change (2 ^ 63) with 9223372036854775808. lia.
    + exists "K"%char. reflexivity.
  - destruct (formatBytes_scaled bytes Hu ltac:(lia)) as (k & Hk & _ & _ & Hfmt).
    split; [eauto|]. split; [|lia].
    intros fuel Hfuel.
    destruct Hu as [H0 Hmax]. unfold Int.uint64_max in Hmax.
    destruct (formatBytes_loop_spec fuel 0 bytes)
      as (k' & Hk' & Hloop & _); [lia | lia | simpl; lia | lia |].
    change (1024 ^ (0 + 1)) with unit in Hloop.
    exists (1024 ^ (k' + 1)), k'.
    split; [exact Hloop|]. split; [lia|]. split.
    + apply pow1024_int64. lia.
    + exists (unit_letter k'). apply index_units. lia.
Qed.

Lemma formatBytes_total_witness :
  Int.is_uint64 Int.uint64_max /\
  exists s, formatBytes Int.uint64_max = Returned s.
Proof.
  assert (Hu : Int.is_uint64 Int.uint64_max)
    by (unfold Int.is_uint64, Int.uint64_max; lia).
  split; [exact Hu|].
  exact (proj1 (formatBytes_total Int.uint64_max Hu)).
Defined.

(** * Properties of the renderer *)

(** ** CPU percentage *)

Section CpuPercent.

Lemma Prim2SF_zero : Prim2SF (F64.of_Z 0) = S754_zero false.
Proof. vm_compute. reflexivity. Qed.

Lemma Prim2SF_hundred :
  Prim2SF 100%float = S754_finite false 7036874417766400 (-46).
Proof. vm_compute. reflexivity. Qed.

(** Dividing by a zero uptime never gives a finite number: 0/0 is NaN
    and x/0 an infinity, and the product with 100 stays so. *)
Lemma cpuPercent_zero_uptime (totalMs : Z) :
  F64.is_finite (cpuPercent totalMs 0) = false.
Proof.
  unfold cpuPercent, F64.is_finite.
  rewrite mul_spec, div_spec, Prim2SF_zero, Prim2SF_hundred.
  destruct (Prim2SF (F64.of_Z totalMs)) as [s|s| |s m e]; reflexivity.
Qed.

End CpuPercent.

(** C2. The CPU cell shows [time_ms / uptime_ms * 100] with one decimal,
    5.0 for 500 ms over 10000 ms; but [updateSystemMetrics] divides
    without testing the uptime: with an uptime of 0 the percentage is
    never finite, and the cell reads NaN% (no CPU time) or +Inf%. *)
Theorem cpuPercent_unguarded_division :
  cpuPercent 500 10000 = 5%float /\
  cpuText (sample_stats 500 10000 0 0 []) = "5.0%"%string /\
  (forall totalMs, F64.is_finite (cpuPercent totalMs 0) = false) /\
  F64.is_nan (cpuPercent 0 0) = true /\
  cpuText (sample_stats 0 0 0 0 []) = "NaN%"%string /\
  cpuText (sample_stats 1 0 0 0 []) = "+Inf%"%string /\
  nth_error
    (Tview.texts (updateSystemMetrics (Some zero_stats) createSystemPanel)) 0
  = Some ["CPU Total:"; "NaN%"]%string.
Proof.
  split; [vm_compute; reflexivity|].
  split; [vm_compute; reflexivity|].
  split; [exact cpuPercent_zero_uptime|].
  split; [vm_compute; reflexivity|].
  split; [vm_compute; reflexivity|].
  split; vm_compute; reflexivity.
Qed.

(** ** Uptime *)

Section Uptime.

Local Open Scope string_scope.

Lemma fmtFrac_loop_zeros (prec : nat) (v : Z) (buf : string) :
  Time.fmtFrac_loop prec (v * 10 ^ Z.of_nat prec) false buf = (buf, v, false).
Proof.
  revert v buf. induction prec as [|prec IH]; intros v buf.
  - simpl. rewrite Z.mul_1_r. reflexivity.
  - cbn [Time.fmtFrac_loop].
    rewrite Nat2Z.inj_succ, Z.pow_succ_r by lia.
    replace (v * (10 * 10 ^ Z.of_nat prec))
      with (v * 10 ^ Z.of_nat prec * 10) by lia.
    rewrite Z.mod_mul, Z.div_mul by lia.
    simpl. apply IH.
Qed.

(** A whole number of minutes prints as hours and minutes followed by
    the seconds, which are 0. *)
Definition minutes_text (mins : Z) : string :=
  if (mins =? 0)%Z then "0s"
  else if (0 <? mins / 60)%Z
       then Fmt.d (mins / 60) ++ "h" ++ Fmt.d (mins mod 60) ++ "m0s"
       else Fmt.d (mins mod 60) ++ "m0s".

Lemma String_whole_minutes (mins : Z) :
  (0 <= mins)%Z ->
  Time.String_ (mins * Time.Minute) = minutes_text mins.
Proof.
  intros Hm. unfold Time.String_, minutes_text.
  change Time.Minute with 60000000000%Z.
  change Time.Second with 1000000000%Z.
  rewrite Z.abs_eq by lia.
  destruct (Z.ltb_spec (mins * 60000000000) 0) as [Hneg|_]; [lia|].
  destruct (Z.eqb_spec mins 0) as [->|Hne]; [reflexivity|].
  destruct (Z.ltb_spec (mins * 60000000000) 1000000000) as [Hlt|_]; [lia|].
  unfold Time.fmtFrac.
  replace (mins * 60000000000)%Z
    with ((mins * 60) * 10 ^ Z.of_nat 9)%Z
    by (change (10 ^ Z.of_nat 9)%Z with 1000000000%Z; lia).
  rewrite fmtFrac_loop_zeros.
  rewrite Z.mod_mul, Z.div_mul by lia.
  destruct (Z.ltb_spec 0 mins) as [_|Hle]; [|lia].
  unfold Time.fmtInt.
  destruct (0 <? mins / 60)%Z; reflexivity.
Qed.

Lemma Truncate_uptime (ms : Z) :
  (0 <= ms)%Z -> (ms * 1000000 < 2 ^ 63)%Z ->
  Time.Truncate (uptime ms) Time.Minute = (ms / 60000 * Time.Minute)%Z.
Proof.
  intros H0 Hfit. unfold uptime, Time.Duration_mul, Time.Truncate.
  change Time.Minute with 60000000000%Z.
  change Time.Millisecond with 1000000%Z.
  change (2 ^ 63)%Z with 9223372036854775808%Z in Hfit.
  rewrite (Int.wrap_int64_small ms)
    by (unfold Int.is_int64;
        change (2 ^ 63)%Z with 9223372036854775808%Z; lia).
  rewrite Int.wrap_int64_small
    by (unfold Int.is_int64;
        change (2 ^ 63)%Z with 9223372036854775808%Z; lia).
  destruct (Z.leb_spec 60000000000 0) as [Hle|_]; [lia|].
  rewrite Z.rem_mod_nonneg by lia.
  pose proof (Z.div_mod (ms * 1000000) 60000000000 ltac:(lia)) as Hdm.
  replace (ms * 1000000 / 60000000000)%Z with (ms / 60000)%Z in Hdm.
  - lia.
  - change 60000000000%Z with (60000 * 1000000)%Z.
    rewrite Z.div_mul_cancel_r by lia. reflexivity.
Qed.

End Uptime.

(** What the uptime cell shows for an uptime whose nanoseconds fit
    [int64]: the whole minutes as [Duration.String] prints them. *)
Theorem uptime_shows_whole_minutes (st : FilebeatStats) :
  0 <= Beat_Info_Uptime_MS st ->
  Beat_Info_Uptime_MS st * 1000000 < 2 ^ 63 ->
  Time.Truncate (uptime (Beat_Info_Uptime_MS st)) Time.Minute
  = Beat_Info_Uptime_MS st / 60000 * Time.Minute /\
  uptimeText st = minutes_text (Beat_Info_Uptime_MS st / 60000) /\
  minutes_text 125 = "2h5m0s"%string.
Proof.
  intros H0 Hfit.
  split; [apply Truncate_uptime; assumption|].
  split; [|reflexivity].
  unfold uptimeText.
  rewrite Truncate_uptime by assumption.
  apply String_whole_minutes.
  apply Z.div_pos; lia.
Qed.

Lemma uptime_shows_whole_minutes_witness :
  uptimeText (sample_stats 0 7530000 0 0 []) = minutes_text 125.
Proof.
  apply (uptime_shows_whole_minutes (sample_stats 0 7530000 0 0 []));
    simpl; lia.
Defined.

(** 125 minutes of uptime render with the seconds shown. *)
Lemma uptime_125_minutes_counterexample :
  uptimeText (sample_stats 0 (125 * 60000) 0 0 []) = "2h5m0s"%string /\
  uptimeText (sample_stats 0 (125 * 60000) 0 0 []) <> "2h5m"%string.
Proof.
  assert (H : uptimeText (sample_stats 0 (125 * 60000) 0 0 [])
              = "2h5m0s"%string) by (vm_compute; reflexivity).
  split; [exact H|]. rewrite H. discriminate.
Qed.

Lemma string_append_assoc (a b c : string) :
  (a ++ b ++ c = (a ++ b) ++ c)%string.
Proof. induction a as [|x a IH]; simpl; [reflexivity|]. rewrite IH. reflexivity. Qed.

Lemma minutes_text_ends_0s (mins : Z) :
  exists front, minutes_text mins = (front ++ "0s")%string.
Proof.
  unfold minutes_text.
  destruct (mins =? 0); [exists EmptyString; reflexivity|].
  destruct (0 <? mins / 60).
  - exists (Fmt.d (mins / 60) ++ "h" ++ Fmt.d (mins mod 60) ++ "m")%string.
    rewrite <- !string_append_assoc. reflexivity.
  - exists (Fmt.d (mins mod 60) ++ "m")%string.
    rewrite <- !string_append_assoc. reflexivity.
Qed.

(** C8. The uptime cell is meant to show no seconds: the code cuts the
    uptime to whole minutes, and the cell is created with the text 0h 0m.
    But the cut duration is printed by [Duration.String], which always
    writes the seconds: 125 minutes render as 2h5m0s and not 2h5m, an
    uptime of 0 as 0s, and every uptime whose nanoseconds fit [int64] as
    its whole minutes followed by 0s. *)
Theorem uptime_prints_seconds :
  uptimeText (sample_stats 0 (125 * 60000) 0 0 []) = "2h5m0s"%string /\
  uptimeText (sample_stats 0 (125 * 60000) 0 0 []) <> "2h5m"%string /\
  uptimeText zero_stats = "0s"%string /\
  nth_error (Tview.texts createSystemPanel) 2
  = Some ["Uptime:"; "0h 0m"]%string /\
  nth_error
    (Tview.texts (updateSystemMetrics (Some zero_stats) createSystemPanel)) 2
  = Some ["Uptime:"; "0s"]%string /\
  (forall st,
     0 <= Beat_Info_Uptime_MS st ->
     Beat_Info_Uptime_MS st * 1000000 < 2 ^ 63 ->
     Time.Truncate (uptime (Beat_Info_Uptime_MS st)) Time.Minute
     = Beat_Info_Uptime_MS st / 60000 * Time.Minute /\
     uptimeText st = minutes_text (Beat_Info_Uptime_MS st / 60000) /\
     exists front, uptimeText st = (front ++ "0s")%string).
Proof.
  assert (H125 : uptimeText (sample_stats 0 (125 * 60000) 0 0 [])
                 = "2h5m0s"%string) by (vm_compute; reflexivity).
  split; [exact H125|].
  split; [rewrite H125; discriminate|].
  split; [vm_compute; reflexivity|].
  split; [reflexivity|].
  split; [vm_compute; reflexivity|].
  intros st H0 Hfit.
  assert (Htext : uptimeText st
                  = minutes_text (Beat_Info_Uptime_MS st / 60000)).
  { unfold uptimeText. rewrite Truncate_uptime by assumption.
    apply String_whole_minutes. apply Z.div_pos; lia. }
  split; [apply Truncate_uptime; assumption|].
  split; [exact Htext|].
  rewrite Htext. apply minutes_text_ends_0s.
Qed.

(** Beyond some 292 years of uptime the nanoseconds wrap around [int64]
    and the cell no longer shows the uptime. *)
Example uptime_wraps :
  uptimeText (sample_stats 0 9223372036855 0 0 []) = "-2562047h47m0s"%string.
Proof. vm_compute. reflexivity. Qed.

(** ** The queue bar *)

Section QueueBar.

Local Open Scope string_scope.

Variable unrepresentable : float -> Z.



(** *** Counting the blocks of a text *)









End QueueBar.

Section QueueBarClaim.

Local Open Scope string_scope.

Variable unrepresentable : float -> Z.

Variable memory : Z.


Lemma Repeat_block_too_long (bars : Z) :
  (0 < bars)%Z ->
  (Z.min maxAlloc memory < 3 * bars)%Z ->
  Repeat memory block bars = Panicked.
Proof.
  intros Hpos Hlong. unfold Repeat.
  destruct (Z.eqb_spec bars 0) as [|_]; [lia|].
  destruct (Z.ltb_spec bars 0) as [|_]; [lia|].
  change (Z.of_nat (String.length block)) with 3%Z.
  destruct (Int.in_int64 (3 * bars)); [|reflexivity]. simpl negb.
  destruct (Z.ltb_spec maxAlloc (3 * bars)) as [|Hm]; [reflexivity|].
  destruct (Z.ltb_spec memory (3 * bars)) as [|Hm']; [reflexivity|].
  lia.
Qed.




Lemma queueText_too_long (filled maxEvents : Z) :
  let bars := queueBars unrepresentable filled maxEvents in
  (0 < bars)%Z ->
  (Z.min maxAlloc memory < 3 * bars)%Z ->
  queueText unrepresentable memory filled maxEvents = Panicked.
Proof.
  intros bars Hpos Hlong. unfold queueText. fold bars.
  rewrite Repeat_block_too_long by assumption. reflexivity.
Qed.





End QueueBarClaim.


(** A bar that cannot exist: 4e17 events in a queue of 1 ask for 8e18
    blocks, whose bytes overflow [int], and the update panics whatever
    memory there is; so does a bar of 1.2e17 blocks, beyond [maxAlloc]. *)
Example queue_bar_too_long_panics (memory : Z) :
  F64.fits_int (queuePercent 400000000000000000 1 / 5) = true /\
  queueBars F64.amd64_indefinite 400000000000000000 1
  = 8000000000000000000 /\
  queueText F64.amd64_indefinite memory 400000000000000000 1 = Panicked /\
  queueText F64.amd64_indefinite memory 6000000000000000 1 = Panicked.
Proof.
  assert (H1 : queueBars F64.amd64_indefinite 400000000000000000 1
               = 8000000000000000000) by (vm_compute; reflexivity).
  assert (H2 : queueBars F64.amd64_indefinite 6000000000000000 1
               = 120000000000000000) by (vm_compute; reflexivity).
  assert (Hmx : maxAlloc = 281474976710656) by reflexivity.
  split; [vm_compute; reflexivity|]. split; [exact H1|].
  split; apply queueText_too_long; rewrite ?H1, ?H2; lia.
Qed.


(** Out of the range of [int] the floor is lost: where the conversion
    yields the least [int], as on amd64, the lower clamp empties the bar. *)
Example queue_bar_overflow_amd64 :
  F64.floor (queuePercent Int.uint64_max 1 / 5) = Some 368934881474191032320 /\
  F64.fits_int (queuePercent Int.uint64_max 1 / 5) = false /\
  queueBars F64.amd64_indefinite Int.uint64_max 1 = 0.
Proof. vm_compute. repeat split. Qed.

(** ** The inputs table *)

Section InputsTable.

Lemma remove_nth_length {A : Type} (n : nat) (l : list A) :
  (n < List.length l)%nat ->
  List.length (Tview.remove_nth n l) = (List.length l - 1)%nat.
Proof.
  revert n. induction l as [|x l IH]; intros [|n] Hn; simpl in *; try lia.
  rewrite IH by lia. lia.
Qed.

Lemma RemoveRow_count (row : Z) (table : Tview.Table) :
  0 <= row < Tview.GetRowCount table ->
  Tview.GetRowCount (Tview.RemoveRow row table) = Tview.GetRowCount table - 1.
Proof.
  unfold Tview.RemoveRow, Tview.GetRowCount. intros Hrow.
  destruct (Z.ltb_spec row 0) as [|_]; [lia|].
  destruct (Z.leb_spec (Z.of_nat (List.length table)) row) as [|_]; [lia|].
  simpl. rewrite remove_nth_length by lia. lia.
Qed.

Lemma removeRows_loop_eq fuel row table :
  removeRows_loop fuel row table =
  if row <? Tview.GetRowCount table then
    match fuel with
    | O => None
    | S fuel' => removeRows_loop fuel' (row + 1) (Tview.RemoveRow row table)
    end
  else Some table.
Proof. destruct fuel; reflexivity. Qed.

(** The row counter advances while the table shrinks: the loop removes
    every other row, and only half of the rows from [row] on. *)
Lemma removeRows_loop_count (fuel : nat) :
  forall row table,
    0 <= row ->
    Tview.GetRowCount table - row <= Z.of_nat fuel ->
    exists cleared,
      removeRows_loop fuel row table = Some cleared /\
      Tview.GetRowCount cleared
      = Tview.GetRowCount table
        - (Z.max 0 (Tview.GetRowCount table - row) + 1) / 2.
Proof.
  induction fuel as [|fuel IH]; intros row table Hrow Hfuel;
    rewrite removeRows_loop_eq;
    destruct (Z.ltb_spec row (Tview.GetRowCount table)) as [Hlt|Hge].
  - lia.
  - exists table. split; [reflexivity|].
    rewrite Z.max_l by lia. change ((0 + 1) / 2) with 0. lia.
  - pose proof (RemoveRow_count row table ltac:(lia)) as Hcount.
    destruct (IH (row + 1) (Tview.RemoveRow row table) ltac:(lia) ltac:(lia))
      as (cleared & Hloop & Hlen).
    exists cleared. split; [exact Hloop|].
    rewrite Hlen, Hcount.
    set (d := Tview.GetRowCount table - row) in *.
    replace (Tview.GetRowCount table - 1 - (row + 1)) with (d - 2) by lia.
    rewrite (Z.max_r 0 d) by lia.
    destruct (Z_le_gt_dec (d - 2) 0) as [Hsmall|Hbig].
    + rewrite Z.max_l by lia.
      assert (Hd : d = 1 \/ d = 2) by lia.
      destruct Hd as [Hd|Hd]; rewrite Hd;
        [change ((1 + 1) / 2) with 1|change ((2 + 1) / 2) with 1];
        change ((0 + 1) / 2) with 0; lia.
    + rewrite Z.max_r by lia.
      replace (d + 1) with (d - 2 + 1 + 1 * 2) by lia.
      rewrite Z.div_add by lia. lia.
  - exists table. split; [reflexivity|].
    rewrite Z.max_l by lia. change ((0 + 1) / 2) with 0. lia.
Qed.

Lemma set_nth_length {A : Type} (pad x : A) (n : nat) (l : list A) :
  List.length (Tview.set_nth pad n x l) = Nat.max (S n) (List.length l).
Proof.
  revert l. induction n as [|n IH]; intros [|y l];
    cbn [Tview.set_nth List.length]; try rewrite IH;
    cbn [List.length]; lia.
Qed.

Lemma SetCell_count (row column : Z) (cell : Tview.TableCell)
  (table : Tview.Table) :
  0 <= row ->
  Tview.GetRowCount (Tview.SetCell row column cell table)
  = Z.max (row + 1) (Tview.GetRowCount table).
Proof.
  intros Hrow. unfold Tview.SetCell, Tview.GetRowCount.
  rewrite set_nth_length. lia.
Qed.

Lemma setInputRow_count (i : Z) (input : Input) (table : Tview.Table) :
  0 <= i ->
  Tview.GetRowCount (setInputRow i input table)
  = Z.max (i + 2) (Tview.GetRowCount table).
Proof.
  intros Hi. unfold setInputRow.
  rewrite !SetCell_count by lia. lia.
Qed.

Lemma setInputRows_count (inputs : list Input) :
  forall i table,
    0 <= i ->
    Tview.GetRowCount (setInputRows i inputs table)
    = match inputs with
      | [] => Tview.GetRowCount table
      | _ :: _ =>
          Z.max (i + 1 + Z.of_nat (List.length inputs))
                (Tview.GetRowCount table)
      end.
Proof.
  induction inputs as [|input rest IH]; intros i table Hi; [reflexivity|].
  cbn [setInputRows]. rewrite IH by lia.
  rewrite setInputRow_count by lia.
  destruct rest as [|input' rest']; simpl List.length; lia.
Qed.

(** The data rows after a render: the inputs, or half of the rows left by
    the previous render when that is more. *)
Lemma updateInputs_row_count (st : FilebeatStats) (table : Tview.Table) :
  1 <= Tview.GetRowCount table ->
  exists table',
    updateInputs (Some st) table = Returned table' /\
    Tview.GetRowCount table' - 1
    = Z.max (Z.of_nat (List.length (Filebeat_Inputs st)))
            ((Tview.GetRowCount table - 1) / 2).
Proof.
  intros Hheader. unfold updateInputs.
  destruct (removeRows_loop_count (List.length table) 1 table)
    as (cleared & Hloop & Hlen);
    [lia | unfold Tview.GetRowCount; lia |].
  rewrite Hloop. eexists. split; [reflexivity|].
  rewrite setInputRows_count by lia.
  set (n := Tview.GetRowCount table) in *.
  assert (Hhalf : n - (Z.max 0 (n - 1) + 1) / 2 - 1 = (n - 1) / 2).
  { rewrite Z.max_r by lia.
    replace (n - 1 + 1) with n by lia.
    pose proof (Z.div_mod n 2 ltac:(lia)).
    pose proof (Z.mod_pos_bound n 2 ltac:(lia)).
    pose proof (Z.div_mod (n - 1) 2 ltac:(lia)).
    pose proof (Z.mod_pos_bound (n - 1) 2 ltac:(lia)).
    lia. }
  assert (Hpos : 0 <= (n - 1) / 2) by (apply Z.div_pos; lia).
  destruct (Filebeat_Inputs st) as [|input rest]; simpl List.length; lia.
Qed.

End InputsTable.

Definition six_inputs : list Input :=
  [ sample_input "a" true 1 0.5%float 1;
    sample_input "b" true 2 0.5%float 1;
    sample_input "c" true 3 0.5%float 1;
    sample_input "d" true 4 0.5%float 1;
    sample_input "e" true 5 0.5%float 1;
    sample_input "f" false 6 0.5%float 1 ].

Definition two_inputs : list Input :=
  [ sample_input "x" true 10 1234.5%float 3;
    sample_input "y" false 20 0.125%float 0 ].

(** C7. On a fresh table a render writes one row per input, in order, with
    the five columns formatted as stated. But the loop that is to remove
    the previous rows advances its row counter while the table shrinks,
    so it removes every other row only: after a render the table holds as
    many data rows as there are inputs, or half of the previous data rows
    when that is more. A render of six inputs followed by a render of two
    leaves three data rows, the third being the stale row of the sixth
    input. *)
Theorem updateInputs_keeps_stale_rows :
  (exists fresh,
     updateInputs (Some (sample_stats 0 0 0 0 two_inputs)) createInputsTable
     = Returned fresh /\
     Tview.texts fresh
     = [ headers;
         ["x"; "true"; "10"; "1234.50"; "3"];
         ["y"; "false"; "20"; "0.12"; "0"] ]%string) /\
  (exists first second,
     updateInputs (Some (sample_stats 0 0 0 0 six_inputs)) createInputsTable
     = Returned first /\
     Tview.GetRowCount first = 7 /\
     updateInputs (Some (sample_stats 0 0 0 0 two_inputs)) first
     = Returned second /\
     Tview.GetRowCount second = 4 /\
     Tview.texts second
     = [ headers;
         ["x"; "true"; "10"; "1234.50"; "3"];
         ["y"; "false"; "20"; "0.12"; "0"];
         ["f"; "false"; "6"; "0.50"; "1"] ]%string) /\
  (forall st table,
     1 <= Tview.GetRowCount table ->
     exists table',
       updateInputs (Some st) table = Returned table' /\
       Tview.GetRowCount table' - 1
       = Z.max (Z.of_nat (List.length (Filebeat_Inputs st)))
               ((Tview.GetRowCount table - 1) / 2)).
Proof.
  split; [|split].
  - eexists. split; vm_compute; reflexivity.
  - do 2 eexists.
    split; [vm_compute; reflexivity|].
    split; [vm_compute; reflexivity|].
    split; [vm_compute; reflexivity|].
    split; vm_compute; reflexivity.
  - exact updateInputs_row_count.
Qed.

(** * Further properties of the poll loop *)

(** A tick whose stats fetch succeeds. *)
Definition stats_ok (t : tick) : bool :=
  match stats_reply t with
  | Response status (Some _) => status =? StatusOK
  | _ => false
  end.

Definition successes (ticks : list tick) : nat :=
  List.length (filter stats_ok ticks).

Definition is_sleep (a : action) : bool :=
  match a with Sleep => true | _ => false end.

Definition is_draw (a : action) : bool :=
  match a with QueueUpdateDraw => true | _ => false end.

Definition is_stats_error (a : action) : bool :=
  match a with LogStatsError _ => true | _ => false end.

Definition count_actions (f : action -> bool) (s : state) : nat :=
  List.length (filter f (actions s)).

Lemma stats_ok_true (t : tick) (now_ : Z) (h : heap) :
  stats_ok t = true ->
  exists stats,
    stats_reply t = Response StatusOK (Some stats) /\
    fetchStats (stats_reply t) now_ h
    = inl (List.length h, h ++ [set_Timestamp now_ stats]).
Proof.
  unfold stats_ok. destruct (stats_reply t) as [|status [stats|]];
    try discriminate.
  intros Hs. apply Z.eqb_eq in Hs. subst status.
  exists stats. split; reflexivity.
Qed.

Lemma stats_ok_false (t : tick) (now_ : Z) (h : heap) :
  stats_ok t = false -> exists e, fetchStats (stats_reply t) now_ h = inr e.
Proof.
  unfold stats_ok, fetchStats.
  destruct (stats_reply t) as [|status [stats|]]; intros Hs.
  - eauto.
  - rewrite Hs. simpl. eauto.
  - destruct (status =? StatusOK); simpl; eauto.
Qed.

Lemma dataWorker_iter_mem_grows (t : tick) (s : state) :
  (List.length (mem s) <= List.length (mem (dataWorker_iter t s)))%nat.
Proof.
  destruct (fetchStats (stats_reply t) (now t) (mem s)) as [[p m]|e] eqn:Hf.
  - destruct (dataWorker_iter_ok _ _ _ _ Hf) as (_ & _ & ->). lia.
  - rewrite (dataWorker_iter_err _ _ _ Hf). simpl. lia.
Qed.

(** An iteration writes the snapshot it allocates and no other. *)
Lemma dataWorker_iter_keeps_old (t : tick) (s : state) (q : ptr) :
  (q < List.length (mem s))%nat ->
  deref (mem (dataWorker_iter t s)) q = deref (mem s) q.
Proof.
  intros Hq. unfold dataWorker_iter.
  destruct (fetchStats (stats_reply t) (now t) (mem s)) as [[p m]|e] eqn:Hf;
    [|reflexivity].
  destruct (fetchStats_ok _ _ _ _ _ Hf) as (stats & _ & -> & ->).
  destruct (fetchInputs (inputs_reply t)) as [inputs|err]; simpl.
  - rewrite deref_alloc_new, store_other by lia.
    apply deref_alloc_old, Hq.
  - apply deref_alloc_old, Hq.
Qed.

(** X1. Once a snapshot is in the heap, no later cycle of the worker
    changes it: whatever the following ticks bring, its address still
    holds the same value. *)
Theorem published_snapshots_immutable
  (more : list tick) (s : state) (q : ptr) (v : FilebeatStats) :
  deref (mem s) q = Some v ->
  deref (mem (dataWorker more s)) q = Some v.
Proof.
  revert s. induction more as [|t more IH]; intros s Hq; [exact Hq|].
  change (dataWorker (t :: more) s) with (dataWorker more (dataWorker_iter t s)).
  apply IH. rewrite dataWorker_iter_keeps_old; [exact Hq|].
  apply nth_error_Some. unfold deref in Hq. congruence.
Qed.

Lemma published_snapshots_immutable_witness :
  let s := dataWorker (good_ticks 2) initial in
  option_map Timestamp (deref (mem s) 1%nat) = Some 1 /\
  option_map Timestamp
    (deref (mem (dataWorker (good_ticks 40 ++ [bad_inputs_tick]) s)) 1%nat)
  = Some 1.
Proof.
  assert (H : exists v, deref (mem (dataWorker (good_ticks 2) initial)) 1%nat
                        = Some v /\ Timestamp v = 1).
  { eexists. split; vm_compute; reflexivity. }
  intros s. subst s.
  destruct H as (v & Hv & Ht).
  pose proof (published_snapshots_immutable
                (good_ticks 40 ++ [bad_inputs_tick]) _ _ _ Hv) as Hlater.
  split.
  - rewrite Hv. simpl. f_equal. exact Ht.
  - rewrite Hlater. simpl. f_equal. exact Ht.
Defined.

(** X2. When both fetches succeed the published snapshot is the decoded
    stats payload with its timestamp replaced by the local clock and its
    inputs replaced wholesale by the decoded inputs list; nothing is
    logged, one redraw is queued and the worker sleeps. *)
Theorem both_fetches_publish_merged
  (t : tick) (s : state) (stats : FilebeatStats) (inputs : list Input) :
  stats_reply t = Response StatusOK (Some stats) ->
  inputs_reply t = Response StatusOK (Some inputs) ->
  let s' := dataWorker_iter t s in
  lastStats s' = Some (List.length (mem s)) /\
  last_snapshot s'
  = Some (set_Filebeat_Inputs inputs (set_Timestamp (now t) stats)) /\
  List.length (mem s') = S (List.length (mem s)) /\
  actions s' = actions s ++ [QueueUpdateDraw; Sleep].
Proof.
  intros Hstats Hinputs s'.
  unfold s', dataWorker_iter, last_snapshot.
  rewrite Hstats, Hinputs. simpl.
  rewrite deref_alloc_new. simpl.
  rewrite store_same, store_length, length_app
    by (rewrite length_app; simpl; lia).
  simpl. repeat split. lia.
Qed.

Lemma both_fetches_publish_merged_witness :
  let s' := dataWorker_iter (good_tick 5) initial in
  option_map Timestamp (last_snapshot s') = Some 5 /\
  option_map (fun v => map Events (Filebeat_Inputs v)) (last_snapshot s')
  = Some [5].
Proof.
  intros s'. subst s'.
  destruct (both_fetches_publish_merged (good_tick 5) initial _ _
              eq_refl eq_refl) as (_ & Hs & _).
  rewrite Hs. split; reflexivity.
Defined.

Lemma successes_snoc (ticks : list tick) (t : tick) :
  successes (ticks ++ [t])
  = (successes ticks + (if stats_ok t then 1 else 0))%nat.
Proof.
  unfold successes. rewrite filter_app, length_app. simpl.
  destruct (stats_ok t); reflexivity.
Qed.

Lemma mem_of_run (ticks : list tick) :
  List.length (mem (dataWorker ticks initial)) = successes ticks /\
  lastStats (dataWorker ticks initial)
  = match successes ticks with O => None | S k => Some k end.
Proof.
  induction ticks as [|t ticks [IHm IHl]] using rev_ind; [split; reflexivity|].
  rewrite dataWorker_snoc, successes_snoc.
  set (s := dataWorker ticks initial) in *.
  destruct (stats_ok t) eqn:Hok.
  - destruct (stats_ok_true t (now t) (mem s) Hok) as (stats & _ & Hf).
    destruct (dataWorker_iter_ok _ _ _ _ Hf) as (Hl & _ & Hm).
    rewrite Hl, Hm, IHm.
    replace (successes ticks + 1)%nat with (S (successes ticks)) by lia.
    split; reflexivity.
  - destruct (stats_ok_false t (now t) (mem s) Hok) as [e Hf].
    rewrite (dataWorker_iter_err _ _ _ Hf). simpl.
    rewrite Nat.add_0_r. split; assumption.
Qed.

(** X3. After any run the heap holds one snapshot per successful stats
    fetch, [lastStats] points to the newest of them, and the history is
    the run of the last 30 addresses at most, in the order of the fetches. *)
Theorem run_keeps_latest_snapshots (ticks : list tick) :
  let s := dataWorker ticks initial in
  let n := successes ticks in
  List.length (mem s) = n /\
  lastStats s = match n with O => None | S k => Some k end /\
  history s = seq (n - 30) (Nat.min n 30).
Proof.
  intros s n.
  destruct (mem_of_run ticks) as [Hm Hl]. fold s n in Hm, Hl.
  split; [exact Hm|]. split; [exact Hl|].
  pose proof (history_of_run ticks) as Hh. simpl in Hh. fold s in Hh.
  rewrite Hh, Hm. unfold lastn, historySize.
  rewrite length_seq, skipn_seq. f_equal; lia.
Qed.

Lemma count_actions_snoc (f : action -> bool) (s : state) (t : tick) :
  count_actions f (dataWorker_iter t s)
  = (count_actions f s
     + List.length
         (filter f (skipn (List.length (actions s))
                      (actions (dataWorker_iter t s)))))%nat.
Proof.
  unfold count_actions, dataWorker_iter.
  destruct (fetchStats (stats_reply t) (now t) (mem s)) as [[p m]|e];
    [destruct (fetchInputs (inputs_reply t)) as [inputs|err]|];
    simpl actions;
    rewrite filter_app, length_app, skipn_app, Nat.sub_diag, skipn_all;
    reflexivity.
Qed.

Lemma iter_new_actions (t : tick) (s : state) :
  let new := skipn (List.length (actions s)) (actions (dataWorker_iter t s)) in
  List.length (filter is_sleep new) = 1%nat /\
  List.length (filter is_draw new) = (if stats_ok t then 1 else 0)%nat /\
  List.length (filter is_stats_error new) = (if stats_ok t then 0 else 1)%nat /\
  List.last new QueueUpdateDraw = Sleep.
Proof.
  unfold dataWorker_iter.
  destruct (stats_ok t) eqn:Hok.
  - destruct (stats_ok_true t (now t) (mem s) Hok) as (stats & _ & ->).
    destruct (fetchInputs (inputs_reply t)) as [inputs|err];
      simpl actions; rewrite skipn_app, Nat.sub_diag, skipn_all;
      repeat split.
  - destruct (stats_ok_false t (now t) (mem s) Hok) as [e ->].
    simpl actions. rewrite skipn_app, Nat.sub_diag, skipn_all.
    repeat split.
Qed.

(** X4. The worker keeps a fixed cadence: over any run it sleeps exactly
    once per cycle, queues exactly one redraw per successful stats fetch
    and logs exactly one stats error per failed one; there is no retry
    within a cycle and no redraw for a failed cycle. *)
Theorem run_cadence (ticks : list tick) :
  let s := dataWorker ticks initial in
  count_actions is_sleep s = List.length ticks /\
  count_actions is_draw s = successes ticks /\
  count_actions is_stats_error s
  = (List.length ticks - successes ticks)%nat /\
  (successes ticks <= List.length ticks)%nat.
Proof.
  induction ticks as [|t ticks IH] using rev_ind;
    [repeat split; reflexivity|].
  simpl in *. destruct IH as (IHs & IHd & IHe & IHle).
  rewrite dataWorker_snoc, successes_snoc, length_app.
  rewrite !count_actions_snoc.
  destruct (iter_new_actions t (dataWorker ticks initial))
    as (Hs & Hd & He & _).
  rewrite Hs, Hd, He, IHs, IHd, IHe. simpl List.length.
  destruct (stats_ok t); repeat split; lia.
Qed.

(** X5. Nothing is published before the first successful stats fetch, and
    something is from then on: [lastStats] is nil exactly when every cycle
    so far has failed, and then the history is empty and [updateUI] leaves
    every widget as it is (the placeholders). *)
Theorem nothing_published_before_first_success
  (unrepresentable : float -> Z) (memory : Z) (ticks : list tick) (ui : UI) :
  let s := dataWorker ticks initial in
  (lastStats s = None <-> successes ticks = 0%nat) /\
  (successes ticks = 0%nat ->
   history s = [] /\ mem s = [] /\
   updateUI unrepresentable memory s ui = Returned ui).
Proof.
  intros s.
  destruct (mem_of_run ticks) as [Hm Hl].
  pose proof (history_of_run ticks) as Hh. simpl in Hh.
  fold s in Hm, Hl, Hh.
  split.
  - rewrite Hl. destruct (successes ticks); split; congruence.
  - intros H0. rewrite H0 in *.
    assert (Hnil : mem s = [])
      by (destruct (mem s); [reflexivity|discriminate Hm]).
    split; [rewrite Hh, Hnil; reflexivity|].
    split; [exact Hnil|].
    unfold updateUI. rewrite Hl. reflexivity.
Qed.

Lemma nothing_published_before_first_success_witness :
  let s := dataWorker [bad_stats_tick; bad_stats_tick] initial in
  successes [bad_stats_tick; bad_stats_tick] = 0%nat /\
  history s = [] /\
  updateUI F64.amd64_indefinite (2 ^ 30) s (initUI) = Returned initUI.
Proof.
  intros s. subst s.
  assert (H0 : successes [bad_stats_tick; bad_stats_tick] = 0%nat)
    by reflexivity.
  destruct (nothing_published_before_first_success F64.amd64_indefinite
              (2 ^ 30) [bad_stats_tick; bad_stats_tick] initUI) as [_ Hrest].
  destruct (Hrest H0) as (Hh & _ & Hui).
  split; [exact H0|]. split; [exact Hh|exact Hui].
Defined.

(** X6. A cycle whose stats fetch fails changes nothing the renderer
    reads: [updateUI] on the state after it returns what it returns on the
    state before it, for every widget state. *)
Theorem failed_cycle_keeps_rendering
  (unrepresentable : float -> Z) (memory : Z) (t : tick) (s : state)
  (ui : UI) :
  stats_ok t = false ->
  updateUI unrepresentable memory (dataWorker_iter t s) ui
  = updateUI unrepresentable memory s ui /\
  count_actions is_draw (dataWorker_iter t s) = count_actions is_draw s.
Proof.
  intros Hok.
  destruct (stats_ok_false t (now t) (mem s) Hok) as [e Hf].
  rewrite (dataWorker_iter_err _ _ _ Hf).
  split; [reflexivity|].
  unfold count_actions. simpl actions.
  rewrite filter_app, length_app. simpl. lia.
Qed.

Lemma failed_cycle_keeps_rendering_witness :
  let s := dataWorker (good_ticks 3) initial in
  stats_ok bad_stats_tick = false /\
  updateUI F64.amd64_indefinite (2 ^ 30) (dataWorker_iter bad_stats_tick s)
    initUI
  = updateUI F64.amd64_indefinite (2 ^ 30) s initUI.
Proof.
  intros s. subst s.
  assert (Hok : stats_ok bad_stats_tick = false) by reflexivity.
  split; [exact Hok|].
  exact (proj1 (failed_cycle_keeps_rendering F64.amd64_indefinite (2 ^ 30)
                  bad_stats_tick _ initUI Hok)).
Defined.

(** * Further properties of the renderer *)

(** ** What the clearing loop of [updateInputs] leaves *)

(** Every second element of a list: the second, the fourth, ... *)
Fixpoint keep_second {A : Type} (l : list A) : list A :=
  match l with
  | _ :: b :: rest => b :: keep_second rest
  | _ => []
  end.

Lemma remove_nth_middle {A : Type} (pre rest : list A) (a : A) :
  Tview.remove_nth (List.length pre) (pre ++ a :: rest) = pre ++ rest.
Proof. induction pre as [|x pre IH]; simpl; [reflexivity|]. rewrite IH. reflexivity. Qed.

Lemma RemoveRow_middle (pre rest : Tview.Table) (a : list Tview.TableCell) :
  Tview.RemoveRow (Z.of_nat (List.length pre)) (pre ++ a :: rest) = pre ++ rest.
Proof.
  unfold Tview.RemoveRow, Tview.GetRowCount.
  rewrite length_app. simpl List.length.
  destruct (Z.ltb_spec (Z.of_nat (List.length pre)) 0) as [|_]; [lia|].
  destruct (Z.leb_spec (Z.of_nat (List.length pre + S (List.length rest)))
              (Z.of_nat (List.length pre))) as [|_]; [lia|].
  simpl. rewrite Nat2Z.id. apply remove_nth_middle.
Qed.

(** With the rows before [row] already passed, the loop keeps every
    second of the rows that follow; a fuel of their number suffices. *)
Lemma removeRows_loop_content (fuel : nat) :
  forall pre rest : Tview.Table,
    (List.length rest <= fuel)%nat ->
    removeRows_loop fuel (Z.of_nat (List.length pre)) (pre ++ rest)
    = Some (pre ++ keep_second rest).
Proof.
  induction fuel as [|fuel IH]; intros pre rest Hfuel;
    rewrite removeRows_loop_eq; unfold Tview.GetRowCount;
    rewrite length_app.
  - destruct rest; [|simpl in Hfuel; lia].
    destruct (Z.ltb_spec (Z.of_nat (List.length pre))
                (Z.of_nat (List.length pre + @List.length (list Tview.TableCell) [])));
      [simpl in *; lia|reflexivity].
  - destruct rest as [|a rest].
    + destruct (Z.ltb_spec (Z.of_nat (List.length pre))
                  (Z.of_nat (List.length pre + @List.length (list Tview.TableCell) [])));
        [simpl in *; lia|reflexivity].
    + destruct (Z.ltb_spec (Z.of_nat (List.length pre))
                  (Z.of_nat (List.length pre + List.length (a :: rest))));
        [|simpl in *; lia].
      rewrite RemoveRow_middle.
      destruct rest as [|b rest].
      * rewrite removeRows_loop_eq. unfold Tview.GetRowCount.
        simpl keep_second. rewrite !app_nil_r.
        destruct (Z.ltb_spec (Z.of_nat (List.length pre) + 1)
                    (Z.of_nat (List.length pre))); [lia|].
        reflexivity.
      * specialize (IH (pre ++ [b]) rest).
        rewrite length_app in IH. simpl List.length in IH.
        replace (Z.of_nat (List.length pre + 1))
          with (Z.of_nat (List.length pre) + 1) in IH by lia.
        rewrite <- app_assoc in IH. simpl app in IH.
        rewrite IH by (simpl in Hfuel; lia).
        rewrite <- app_assoc. reflexivity.
Qed.

Lemma keep_second_length {A : Type} (l : list A) :
  List.length (keep_second l) = Nat.div2 (List.length l).
Proof.
  enough (H : forall n (l : list A), (List.length l <= n)%nat ->
              List.length (keep_second l) = Nat.div2 (List.length l))
    by (apply (H (List.length l)); lia).
  clear l. intros n. induction n as [|n IH]; intros l Hl.
  - destruct l; [reflexivity|simpl in Hl; lia].
  - destruct l as [|a [|b rest]]; try reflexivity.
    simpl in *. rewrite IH by lia. reflexivity.
Qed.

Lemma keep_second_Forall {A : Type} (P : A -> Prop) (l : list A) :
  Forall P l -> Forall P (keep_second l).
Proof.
  enough (H : forall n (l : list A), (List.length l <= n)%nat ->
              Forall P l -> Forall P (keep_second l))
    by (apply (H (List.length l)); lia).
  clear l. intros n. induction n as [|n IH]; intros l Hl HP.
  - destruct l; [constructor|simpl in Hl; lia].
  - destruct l as [|a [|b rest]]; try constructor.
    + inversion HP as [|? ? _ HP']. inversion HP'. assumption.
    + apply IH; [simpl in Hl; lia|].
      inversion HP as [|? ? _ HP']. inversion HP'. assumption.
Qed.

(** X7. [updateInputs] returns on every table, with or without a
    snapshot, and its clearing loop keeps the header and every second data
    row (the second, the fourth, ...): the rows of the snapshot's inputs
    are then written over what is left. An empty table stays empty before
    the rows are written. *)
Theorem updateInputs_clears_every_other_row
  (last : option FilebeatStats) (header : list Tview.TableCell)
  (rows : Tview.Table) :
  updateInputs last (header :: rows)
  = Returned
      (match last with
       | Some st =>
           setInputRows 0 (Filebeat_Inputs st) (header :: keep_second rows)
       | None => header :: keep_second rows
       end) /\
  updateInputs last []
  = Returned
      (match last with
       | Some st => setInputRows 0 (Filebeat_Inputs st) []
       | None => []
       end).
Proof.
  split.
  - unfold updateInputs.
    pose proof (removeRows_loop_content (List.length (header :: rows))
                  [header] rows) as Hloop.
    change ([header] ++ rows) with (header :: rows) in Hloop.
    change (Z.of_nat (List.length [header])) with 1 in Hloop.
    rewrite Hloop by (simpl; lia).
    destruct last; reflexivity.
  - destruct last; reflexivity.
Qed.

(** ** When the inputs table is exact *)

Definition white (s : string) : Tview.TableCell :=
  Tview.SetTextColor Tview.ColorWhite (Tview.NewTableCell s).

(** The row that [updateInputs] writes for an input. *)
Definition inputRow (input : Input) : list Tview.TableCell :=
  [ white (Type_ input);
    white (Fmt.t (Active input));
    white (Fmt.d (Events input));
    white (Fmt.f 2 (Throughput_Bytes input));
    white (Fmt.d (Files input)) ].

(** A row of at most five cells, as every row the program writes. *)
Definition narrow (row : list Tview.TableCell) : Prop :=
  (List.length row <= 5)%nat.

Lemma set_nth_middle {A : Type} (pad x o : A) (pre rest : list A) :
  Tview.set_nth pad (List.length pre) x (pre ++ o :: rest) = pre ++ x :: rest.
Proof.
  induction pre as [|y pre IH]; simpl; [reflexivity|].
  rewrite IH. reflexivity.
Qed.

Lemma set_nth_end {A : Type} (pad x : A) (pre : list A) :
  Tview.set_nth pad (List.length pre) x pre = pre ++ [x].
Proof.
  induction pre as [|y pre IH]; simpl; [reflexivity|].
  rewrite IH. reflexivity.
Qed.

Lemma SetCell_middle (row column : Z) (cell : Tview.TableCell)
  (pre rest : Tview.Table) (o : list Tview.TableCell) :
  row = Z.of_nat (List.length pre) ->
  Tview.SetCell row column cell (pre ++ o :: rest)
  = pre ++ Tview.set_nth (Tview.NewTableCell "") (Z.to_nat column) cell o
        :: rest.
Proof.
  intros ->. unfold Tview.SetCell. rewrite Nat2Z.id.
  rewrite nth_middle. apply set_nth_middle.
Qed.

Lemma SetCell_end (row column : Z) (cell : Tview.TableCell)
  (pre : Tview.Table) :
  row = Z.of_nat (List.length pre) ->
  Tview.SetCell row column cell pre
  = pre ++ [Tview.set_nth (Tview.NewTableCell "") (Z.to_nat column) cell []].
Proof.
  intros ->. unfold Tview.SetCell. rewrite Nat2Z.id.
  rewrite nth_overflow by lia. apply set_nth_end.
Qed.

(** Writing the five cells over a narrow row leaves exactly the five. *)
Lemma five_cells (c0 c1 c2 c3 c4 pad : Tview.TableCell)
  (o : list Tview.TableCell) :
  narrow o ->
  Tview.set_nth pad 4 c4
    (Tview.set_nth pad 3 c3
       (Tview.set_nth pad 2 c2
          (Tview.set_nth pad 1 c1 (Tview.set_nth pad 0 c0 o))))
  = [c0; c1; c2; c3; c4].
Proof.
  unfold narrow. intros Hn.
  destruct o as [|x0 [|x1 [|x2 [|x3 [|x4 [|x5 o]]]]]]; try reflexivity.
  simpl in Hn. lia.
Qed.

Lemma setInputRow_middle (i : Z) (input : Input) (pre rest : Tview.Table)
  (o : list Tview.TableCell) :
  i + 1 = Z.of_nat (List.length pre) ->
  narrow o ->
  setInputRow i input (pre ++ o :: rest) = pre ++ inputRow input :: rest.
Proof.
  intros Hi Hn. unfold setInputRow.
  rewrite !SetCell_middle by exact Hi.
  change (Z.to_nat 0) with 0%nat. change (Z.to_nat 1) with 1%nat.
  change (Z.to_nat 2) with 2%nat. change (Z.to_nat 3) with 3%nat.
  change (Z.to_nat 4) with 4%nat.
  rewrite five_cells by exact Hn. reflexivity.
Qed.

Lemma setInputRow_end (i : Z) (input : Input) (pre : Tview.Table) :
  i + 1 = Z.of_nat (List.length pre) ->
  setInputRow i input pre = pre ++ [inputRow input].
Proof.
  intros Hi. unfold setInputRow.
  rewrite (SetCell_end (i + 1) 0) by exact Hi.
  rewrite !SetCell_middle by exact Hi.
  reflexivity.
Qed.

Lemma setInputRows_exact (inputs : list Input) :
  forall (i : nat) (pre old : Tview.Table),
    List.length pre = S i ->
    (List.length old <= List.length inputs)%nat ->
    Forall narrow old ->
    setInputRows (Z.of_nat i) inputs (pre ++ old)
    = pre ++ map inputRow inputs.
Proof.
  induction inputs as [|input inputs IH]; intros i pre old Hpre Hlen Hnarrow.
  - destruct old; [reflexivity|simpl in Hlen; lia].
  - cbn [setInputRows map].
    replace (Z.of_nat i + 1) with (Z.of_nat (S i)) by lia.
    destruct old as [|o old].
    + rewrite app_nil_r, setInputRow_end by lia.
      rewrite <- (app_nil_r (pre ++ [inputRow input])).
      rewrite IH; [rewrite <- app_assoc; reflexivity | | simpl; lia | constructor].
      rewrite length_app. simpl. lia.
    + inversion Hnarrow as [|? ? Ho Hold]; subst.
      rewrite setInputRow_middle by (assumption || lia).
      change (pre ++ inputRow input :: old)
        with (pre ++ [inputRow input] ++ old).
      rewrite app_assoc.
      rewrite IH; [rewrite <- app_assoc; reflexivity | | simpl in Hlen; lia | assumption].
      rewrite length_app. simpl. lia.
Qed.

Lemma inputRow_narrow (inputs : list Input) :
  Forall narrow (map inputRow inputs).
Proof.
  induction inputs; constructor; [unfold narrow; simpl; lia|assumption].
Qed.

Lemma updateInputs_exact_rows
  (st : FilebeatStats) (header : list Tview.TableCell) (rows : Tview.Table) :
  Forall narrow rows ->
  (Nat.div2 (List.length rows) <= List.length (Filebeat_Inputs st))%nat ->
  updateInputs (Some st) (header :: rows)
  = Returned (header :: map inputRow (Filebeat_Inputs st)).
Proof.
  intros Hnarrow Hhalf. unfold updateInputs.
  pose proof (removeRows_loop_content (List.length (header :: rows))
                [header] rows) as Hloop.
  change ([header] ++ rows) with (header :: rows) in Hloop.
  change (Z.of_nat (List.length [header])) with 1 in Hloop.
  rewrite Hloop by (simpl; lia).
  f_equal.
  apply (setInputRows_exact (Filebeat_Inputs st) 0 [header]
           (keep_second rows)).
  - reflexivity.
  - rewrite keep_second_length. exact Hhalf.
  - apply keep_second_Forall, Hnarrow.
Qed.

(** X8. If the previous rows are narrow (at most five cells, as all rows
    the program writes) and half their number does not exceed the number
    of inputs, the render is exact: the table is the header followed by
    one row per input, in list order, with the five cells type, active,
    events, throughput to two decimals and files. *)
Theorem updateInputs_exact
  (st : FilebeatStats) (header : list Tview.TableCell) (rows : Tview.Table) :
  Forall narrow rows ->
  (Nat.div2 (List.length rows) <= List.length (Filebeat_Inputs st))%nat ->
  exists table,
    updateInputs (Some st) (header :: rows) = Returned table /\
    table = header :: map inputRow (Filebeat_Inputs st) /\
    Tview.GetRowCount table
    = 1 + Z.of_nat (List.length (Filebeat_Inputs st)) /\
    Forall narrow (tl table).
Proof.
  intros Hnarrow Hhalf.
  exists (header :: map inputRow (Filebeat_Inputs st)).
  split; [apply updateInputs_exact_rows; assumption|].
  split; [reflexivity|].
  split; [|apply inputRow_narrow].
  unfold Tview.GetRowCount. simpl List.length. rewrite length_map. lia.
Qed.

Lemma updateInputs_exact_witness :
  exists table,
    updateInputs (Some (sample_stats 0 0 0 0 six_inputs))
      (nth 0 createInputsTable [] :: map inputRow two_inputs)
    = Returned table /\
    Tview.GetRowCount table = 7.
Proof.
  destruct (updateInputs_exact (sample_stats 0 0 0 0 six_inputs)
              (nth 0 createInputsTable []) (map inputRow two_inputs))
    as (table & Hret & _ & Hcount & _).
  - repeat constructor; unfold narrow; simpl; lia.
  - simpl. lia.
  - exists table. split; [exact Hret|exact Hcount].
Defined.

(** ** Successive renders *)

(** The renders of the inputs table for the snapshots published one
    after the other. *)
Fixpoint render_inputs (sts : list FilebeatStats) (table : Tview.Table)
  : outcome Tview.Table :=
  match sts with
  | [] => Returned table
  | st :: rest =>
      match updateInputs (Some st) table with
      | Returned table' => render_inputs rest table'
      | Panicked => Panicked
      | OutOfFuel => OutOfFuel
      end
  end.

(** No snapshot has fewer inputs than half (rounded down) of the
    snapshot before it, which had [prev]. *)
Fixpoint gentle (prev : nat) (sts : list FilebeatStats) : Prop :=
  match sts with
  | [] => True
  | st :: rest =>
      (Nat.div2 prev <= List.length (Filebeat_Inputs st))%nat /\
      gentle (List.length (Filebeat_Inputs st)) rest
  end.

(** The inputs of the last snapshot, [prev] when there is none. *)
Definition final_inputs (prev : list Input) (sts : list FilebeatStats)
  : list Input :=
  fold_left (fun _ st => Filebeat_Inputs st) sts prev.

Lemma render_inputs_exact (header : list Tview.TableCell)
  (sts : list FilebeatStats) :
  forall prev : list Input,
    gentle (List.length prev) sts ->
    render_inputs sts (header :: map inputRow prev)
    = Returned (header :: map inputRow (final_inputs prev sts)).
Proof.
  induction sts as [|st sts IH]; intros prev Hg; [reflexivity|].
  destruct Hg as [Hhalf Hrest].
  cbn [render_inputs].
  rewrite updateInputs_exact_rows.
  - apply IH, Hrest.
  - apply inputRow_narrow.
  - rewrite length_map. exact Hhalf.
Qed.

(** The texts of the row of an input. *)
Definition inputTexts (input : Input) : list string :=
  [ Type_ input;
    Fmt.t (Active input);
    Fmt.d (Events input);
    Fmt.f 2 (Throughput_Bytes input);
    Fmt.d (Files input) ].

(** X9. Starting from the table that [createInputsTable] builds, as long
    as no snapshot has fewer inputs than half of the one before it, the
    successive renders all return and the table shows the header and
    exactly the inputs of the last snapshot, in order; the stale rows that
    the clearing loop leaves are all overwritten. *)
Theorem successive_renders_exact (sts : list FilebeatStats) :
  gentle 0 sts ->
  exists table,
    render_inputs sts createInputsTable = Returned table /\
    Tview.texts table = headers :: map inputTexts (final_inputs [] sts) /\
    Tview.GetRowCount table
    = 1 + Z.of_nat (List.length (final_inputs [] sts)).
Proof.
  intros Hg.
  pose proof (render_inputs_exact (nth 0 createInputsTable []) sts [] Hg)
    as Hrender.
  change (nth 0 createInputsTable [] :: map inputRow [])
    with createInputsTable in Hrender.
  eexists. split; [exact Hrender|]. split.
  - cbn [Tview.texts map]. f_equal.
    rewrite map_map. apply map_ext. reflexivity.
  - unfold Tview.GetRowCount. simpl List.length. rewrite length_map. lia.
Qed.

Lemma successive_renders_exact_witness :
  exists table,
    render_inputs
      [ sample_stats 0 0 0 0 two_inputs;
        sample_stats 0 0 0 0 six_inputs;
        sample_stats 0 0 0 0 (firstn 3 six_inputs) ]
      createInputsTable
    = Returned table /\
    Tview.GetRowCount table = 4.
Proof.
  destruct (successive_renders_exact
              [ sample_stats 0 0 0 0 two_inputs;
                sample_stats 0 0 0 0 six_inputs;
                sample_stats 0 0 0 0 (firstn 3 six_inputs) ])
    as (table & Hret & _ & Hcount).
  - simpl. repeat split; lia.
  - exists table. split; [exact Hret|exact Hcount].
Defined.

(** ** The system panel *)

Lemma updateSystemMetrics_fresh (st : FilebeatStats) :
  updateSystemMetrics (Some st) createSystemPanel
  = [ [ white "CPU Total:";
        Tview.SetTextColor Tview.ColorOrange (Tview.NewTableCell (cpuText st)) ];
      [ white "Memoria RSS:";
        Tview.SetTextColor Tview.ColorGreen (Tview.NewTableCell (rssText st)) ];
      [ white "Uptime:";
        Tview.SetTextColor Tview.ColorBlue (Tview.NewTableCell (uptimeText st)) ];
      [ white "Load Avg:";
        Tview.SetTextColor Tview.ColorYellow (Tview.NewTableCell (loadText st)) ] ].
Proof. reflexivity. Qed.

(** The system panel with the four value texts given. *)
Definition systemPanel_of (cpu rss up load : string) : Tview.Table :=
  [ [ white "CPU Total:";
      Tview.SetTextColor Tview.ColorOrange (Tview.NewTableCell cpu) ];
    [ white "Memoria RSS:";
      Tview.SetTextColor Tview.ColorGreen (Tview.NewTableCell rss) ];
    [ white "Uptime:";
      Tview.SetTextColor Tview.ColorBlue (Tview.NewTableCell up) ];
    [ white "Load Avg:";
      Tview.SetTextColor Tview.ColorYellow (Tview.NewTableCell load) ] ].

Lemma updateSystemMetrics_of (st : FilebeatStats) (cpu rss up load : string) :
  updateSystemMetrics (Some st) (systemPanel_of cpu rss up load)
  = systemPanel_of (cpuText st) (rssText st) (uptimeText st) (loadText st).
Proof. reflexivity. Qed.

Definition render_system (sts : list FilebeatStats) (panel : Tview.Table)
  : Tview.Table :=
  fold_left (fun p st => updateSystemMetrics (Some st) p) sts panel.

Lemma render_system_shape (sts : list FilebeatStats) :
  forall cpu rss up load,
  exists cpu' rss' up' load',
    render_system sts (systemPanel_of cpu rss up load)
    = systemPanel_of cpu' rss' up' load'.
Proof.
  induction sts as [|st sts IH]; intros cpu rss up load.
  - exists cpu, rss, up, load. reflexivity.
  - cbn [render_system fold_left]. rewrite updateSystemMetrics_of.
    apply IH.
Qed.

(** X10. Unlike the inputs table, the system panel keeps nothing of
    earlier renders: after the renders of any snapshots followed by [st],
    the panel created by [createSystemPanel] holds its four labels in
    white and, in the colours it was created with, the four texts of
    [st] alone. *)
Theorem system_panel_shows_last_snapshot
  (sts : list FilebeatStats) (st : FilebeatStats) :
  render_system (sts ++ [st]) createSystemPanel
  = systemPanel_of (cpuText st) (rssText st) (uptimeText st) (loadText st) /\
  Tview.texts (render_system (sts ++ [st]) createSystemPanel)
  = [ ["CPU Total:"; cpuText st];
      ["Memoria RSS:"; rssText st];
      ["Uptime:"; uptimeText st];
      ["Load Avg:"; loadText st] ]%string.
Proof.
  assert (H : render_system (sts ++ [st]) createSystemPanel
              = systemPanel_of (cpuText st) (rssText st) (uptimeText st)
                  (loadText st)).
  { unfold render_system. rewrite fold_left_app.
    destruct (render_system_shape sts "0.0%" "0.0 MB" "0h 0m" "0.00 0.00 0.00")
      as (cpu & rss & up & load & Hshape).
    change (systemPanel_of "0.0%" "0.0 MB" "0h 0m" "0.00 0.00 0.00")
      with createSystemPanel in Hshape.
    unfold render_system in Hshape. rewrite Hshape.
    apply updateSystemMetrics_of. }
  split; [exact H|]. rewrite H. reflexivity.
Qed.

(** * Keys and focus *)

(** The keys that the input capture of [initUI] tells apart. *)
Inductive key : Type :=
| KeyEsc
| KeyTab
| KeyBacktab
| KeyEnter
| KeyOther.

(** The two widgets that can be given the focus. *)
Inductive focusable : Type :=
| FocusSystemPanel
| FocusInputsTable.

(** What the capture calls: the two calls into the library, which are
    not followed further here, and [showInputDetails]. *)
Inductive call : Type :=
| SwitchToPage (name : string)
| SetFocus (target : option focusable)
| ShowInputDetails.

(** The global [currentFocus] and the calls made by the capture so far. *)
Record frontend : Type := {
  currentFocus : Z;
  calls : list call
}.

(** After [initUI]. *)
Definition initial_frontend : frontend :=
  {| currentFocus := 0; calls := [] |}.

(** [getFocusableComponent]: the first item of the left panel for 0, of
    the right panel for 1, nil otherwise. *)
Definition getFocusableComponent (index : Z) : option focusable :=
  if index =? 0 then Some FocusSystemPanel
  else if index =? 1 then Some FocusInputsTable
  else None.

(** The input capture installed by [initUI]: what it does to the global
    and which calls it makes, and the event that it returns, which is the
    key itself: the library then hands that key to the focused widget. *)
Definition inputCapture (k : key) (fe : frontend) : frontend * key :=
  (match k with
   | KeyEsc =>
       {| currentFocus := currentFocus fe;
          calls := calls fe ++ [SwitchToPage "main"] |}
   | KeyTab =>
       let f := Z.rem (Int.wrap_int64 (currentFocus fe + 1)) 2 in
       {| currentFocus := f;
          calls := calls fe ++ [SetFocus (getFocusableComponent f)] |}
   | KeyBacktab =>
       let f := Z.rem (Int.wrap_int64
                         (Int.wrap_int64 (currentFocus fe - 1) + 2)) 2 in
       {| currentFocus := f;
          calls := calls fe ++ [SetFocus (getFocusableComponent f)] |}
   | KeyEnter =>
       if currentFocus fe =? 1 then
         {| currentFocus := currentFocus fe;
            calls := calls fe ++ [ShowInputDetails] |}
       else fe
   | KeyOther => fe
   end, k).

(** The captures of the keys of a session, one after the other. Nothing
    but the capture writes [currentFocus]. *)
Definition run_keys (keys : list key) (fe : frontend) : frontend :=
  fold_left (fun fe k => fst (inputCapture k fe)) keys fe.

Definition is_tab (k : key) : bool :=
  match k with
  | KeyTab | KeyBacktab => true
  | _ => false
  end.

Definition tabs (keys : list key) : nat := List.length (filter is_tab keys).

Lemma run_keys_snoc (keys : list key) (k : key) (fe : frontend) :
  run_keys (keys ++ [k]) fe = fst (inputCapture k (run_keys keys fe)).
Proof. unfold run_keys. rewrite fold_left_app. reflexivity. Qed.

Lemma toggle_focus (f : Z) :
  f = 0 \/ f = 1 ->
  Z.rem (Int.wrap_int64 (f + 1)) 2 = 1 - f /\
  Z.rem (Int.wrap_int64 (Int.wrap_int64 (f - 1) + 2)) 2 = 1 - f.
Proof. intros [-> | ->]; split; reflexivity. Qed.

Lemma inputCapture_focus (k : key) (fe : frontend) :
  currentFocus fe = 0 \/ currentFocus fe = 1 ->
  currentFocus (fst (inputCapture k fe))
  = (if is_tab k then 1 - currentFocus fe else currentFocus fe).
Proof.
  intros Hf. destruct (toggle_focus _ Hf) as [Ht Hb].
  destruct k; simpl; try assumption; try reflexivity.
  destruct (currentFocus fe =? 1); reflexivity.
Qed.

Lemma currentFocus_of_run (keys : list key) :
  currentFocus (run_keys keys initial_frontend)
  = Z.of_nat (tabs keys) mod 2.
Proof.
  induction keys as [|k keys IH] using rev_ind; [reflexivity|].
  rewrite run_keys_snoc.
  assert (Hf : currentFocus (run_keys keys initial_frontend) = 0 \/
               currentFocus (run_keys keys initial_frontend) = 1).
  { rewrite IH.
    pose proof (Z.mod_pos_bound (Z.of_nat (tabs keys)) 2 ltac:(lia)). lia. }
  rewrite inputCapture_focus by exact Hf.
  unfold tabs in *. rewrite filter_app, length_app. cbn [filter].
  destruct (is_tab k); cbn [List.length].
  - rewrite IH, Nat2Z.inj_add. change (Z.of_nat 1) with 1.
    pose proof (Z.mod_pos_bound (Z.of_nat (List.length (filter is_tab keys))) 2
                  ltac:(lia)) as Hb.
    rewrite (Z.add_mod (Z.of_nat _) 1 2) by lia.
    set (m := Z.of_nat (List.length (filter is_tab keys)) mod 2) in *.
    assert (Hm : m = 0 \/ m = 1) by lia.
    destruct Hm as [-> | ->]; reflexivity.
  - rewrite Nat.add_0_r. exact IH.
Qed.

(** X11. Whatever keys arrive, [currentFocus] stays 0 or 1: it is the
    parity of the number of Tab and Backtab keys so far. The two keys do
    the same to the global and make the same call (with two widgets,
    forward and backward coincide), each undoes the other and itself, and
    the widget they ask the focus for is never nil: the inputs table from
    0, the system panel from 1. The capture returns every key as it got
    it. *)
Theorem focus_toggles (keys : list key) :
  let fe := run_keys keys initial_frontend in
  currentFocus fe = Z.of_nat (tabs keys) mod 2 /\
  (currentFocus fe = 0 \/ currentFocus fe = 1) /\
  fst (inputCapture KeyTab fe) = fst (inputCapture KeyBacktab fe) /\
  currentFocus (fst (inputCapture KeyTab (fst (inputCapture KeyTab fe))))
  = currentFocus fe /\
  calls (fst (inputCapture KeyTab fe))
  = calls fe
    ++ [SetFocus (Some (if currentFocus fe =? 0 then FocusInputsTable
                        else FocusSystemPanel))] /\
  (forall k, snd (inputCapture k fe) = k).
Proof.
  intros fe.
  pose proof (currentFocus_of_run keys) as Hrun. fold fe in Hrun.
  assert (Hf : currentFocus fe = 0 \/ currentFocus fe = 1).
  { rewrite Hrun.
    pose proof (Z.mod_pos_bound (Z.of_nat (tabs keys)) 2 ltac:(lia)). lia. }
  split; [exact Hrun|]. split; [exact Hf|].
  unfold inputCapture. cbn [fst snd].
  destruct Hf as [H0|H1]; [rewrite H0|rewrite H1]; repeat split.
Qed.

(** * The heap as the log of the fetches *)

(** The snapshot that a tick publishes, if its stats fetch succeeds: the
    stats payload stamped with the clock, with the inputs merged in when
    the inputs fetch succeeds too. *)
Definition snapshot_of (t : tick) : option FilebeatStats :=
  match stats_reply t with
  | Response status (Some stats) =>
      if status =? StatusOK then
        let v := set_Timestamp (now t) stats in
        Some (match fetchInputs (inputs_reply t) with
              | inl inputs => set_Filebeat_Inputs inputs v
              | inr _ => v
              end)
      else None
  | _ => None
  end.

Definition published (ticks : list tick) : list FilebeatStats :=
  flat_map (fun t => match snapshot_of t with
                     | Some v => [v]
                     | None => []
                     end) ticks.

Lemma store_alloc (h : heap) (v v' : FilebeatStats) :
  store (h ++ [v]) (List.length h) v' = h ++ [v'].
Proof. induction h as [|x h IH]; simpl; [reflexivity|]. rewrite IH. reflexivity. Qed.

Lemma dataWorker_iter_mem (t : tick) (s : state) :
  mem (dataWorker_iter t s)
  = mem s ++ match snapshot_of t with Some v => [v] | None => [] end.
Proof.
  unfold dataWorker_iter, snapshot_of, fetchStats.
  destruct (stats_reply t) as [|status [stats|]]; simpl;
    try (destruct (status =? StatusOK); simpl);
    try (rewrite app_nil_r; reflexivity).
  destruct (fetchInputs (inputs_reply t)) as [inputs|err]; simpl.
  - rewrite deref_alloc_new. apply store_alloc.
  - reflexivity.
Qed.

Lemma mem_is_published (ticks : list tick) :
  mem (dataWorker ticks initial) = published ticks.
Proof.
  induction ticks as [|t ticks IH] using rev_ind; [reflexivity|].
  rewrite dataWorker_snoc, dataWorker_iter_mem, IH.
  unfold published. rewrite flat_map_app. simpl. rewrite app_nil_r.
  reflexivity.
Qed.

(** X14. The heap is the log of the successful fetches: after any run it
    holds, in order, the snapshot of every tick whose stats fetch
    succeeded, each with the inputs of its own tick merged in when that
    fetch succeeded too, and the snapshot that [lastStats] points to is
    the last of them; failed ticks leave no trace in it. *)
Theorem heap_is_fetch_log (ticks : list tick) :
  let s := dataWorker ticks initial in
  mem s = published ticks /\
  last_snapshot s = List.last (map Some (published ticks)) None /\
  List.length (published ticks) = successes ticks.
Proof.
  intros s.
  pose proof (mem_is_published ticks) as Hm. fold s in Hm.
  destruct (mem_of_run ticks) as [Hlen Hl]. fold s in Hlen, Hl.
  split; [exact Hm|]. split; [|rewrite <- Hm; exact Hlen].
  unfold last_snapshot. rewrite Hl, <- Hm.
  destruct (successes ticks) as [|k] eqn:Hn.
  - destruct (mem s); [reflexivity|discriminate Hlen].
  - destruct (mem s) as [|x h] eqn:Hmem using rev_ind;
      [discriminate Hlen|].
    rewrite length_app in Hlen. simpl in Hlen.
    assert (k = List.length h) by lia. subst k.
    rewrite deref_alloc_new, map_app. simpl. rewrite last_last.
    reflexivity.
Qed.

Example heap_log_sample :
  map Timestamp
    (published [good_tick 1; bad_stats_tick; bad_inputs_tick; good_tick 4])
  = [1; 77; 4] /\
  map (fun v => List.length (Filebeat_Inputs v))
    (published [good_tick 1; bad_stats_tick; bad_inputs_tick; good_tick 4])
  = [1; 0; 1]%nat.
Proof. split; reflexivity. Qed.

(** * formatHistogram *)

From Stdlib Require Import Permutation.

(** A byte that continues a UTF-8 sequence (10xxxxxx). *)
Definition is_continuation (a : ascii) : bool :=
  let n := nat_of_ascii a in (128 <=? n)%nat && (n <? 192)%nat.

(** The number of runes of a string that is valid UTF-8, as the keys
    decoded from JSON are. *)
Fixpoint rune_count (s : string) : nat :=
  match s with
  | EmptyString => 0
  | String a s' =>
      ((if is_continuation a then 0 else 1) + rune_count s')%nat
  end.

Fixpoint spaces (n : nat) : string :=
  match n with
  | O => EmptyString
  | S k => String " " (spaces k)
  end.

(** [%-15s]: the string, padded on the right to 15 runes. *)
Definition fmt_s_left15 (s : string) : string :=
  (s ++ spaces (15 - rune_count s))%string.

Definition newline : string := String "010" EmptyString.

(** What [formatHistogram] writes for an entry: a line for a number,
    nothing for any other value. *)
Definition histogramLine (entry : string * jvalue) : list string :=
  match snd entry with
  | JNumber val =>
      [("  " ++ fmt_s_left15 (fst entry) ++ ": " ++ Fmt.f 2 val ++ newline)%string]
  | JOther => []
  end.

(** [formatHistogram], over the entries in the order in which the [range]
    over the map yields them on this call. *)
Fixpoint formatHistogram (histo : list (string * jvalue)) : string :=
  match histo with
  | [] => EmptyString
  | (k, v) :: rest =>
      (match v with
       | JNumber val =>
           "  " ++ fmt_s_left15 k ++ ": " ++ Fmt.f 2 val ++ newline
       | JOther => ""
       end ++ formatHistogram rest)%string
  end.

Definition histogramLines (histo : list (string * jvalue)) : list string :=
  flat_map histogramLine histo.

Definition is_number (entry : string * jvalue) : bool :=
  match snd entry with JNumber _ => true | JOther => false end.

Lemma string_length_app (a b : string) :
  String.length (a ++ b) = (String.length a + String.length b)%nat.
Proof. induction a as [|c a IH]; simpl; [reflexivity|]. rewrite IH. reflexivity. Qed.

Lemma string_app_nil_r (a : string) : (a ++ "")%string = a.
Proof. induction a as [|x a IH]; simpl; [reflexivity|]. rewrite IH. reflexivity. Qed.

Lemma formatHistogram_concat (histo : list (string * jvalue)) :
  formatHistogram histo = String.concat "" (histogramLines histo) /\
  String.length (formatHistogram histo)
  = list_sum (map String.length (histogramLines histo)).
Proof.
  induction histo as [|[k v] histo [IHc IHl]]; [split; reflexivity|].
  unfold histogramLines in *. cbn [flat_map formatHistogram].
  destruct v as [val|]; cbn [histogramLine snd fst app].
  - split.
    + rewrite IHc.
      destruct (flat_map histogramLine histo) as [|l ls] eqn:Hls;
        cbn [String.concat].
      * apply string_app_nil_r.
      * reflexivity.
    + cbn [map list_sum]. rewrite string_length_app, IHl. reflexivity.
  - split; [exact IHc|exact IHl].
Qed.

(** X15. [formatHistogram] writes one line per entry whose value is a
    number and nothing for the others; the order in which the map yields
    its entries only permutes the lines: two orders of the same entries
    give the same lines, as many of them, and a text of the same length. *)
Theorem formatHistogram_order (histo histo' : list (string * jvalue)) :
  Permutation histo histo' ->
  Permutation (histogramLines histo) (histogramLines histo') /\
  formatHistogram histo = String.concat "" (histogramLines histo) /\
  List.length (histogramLines histo) = List.length (filter is_number histo) /\
  String.length (formatHistogram histo)
  = String.length (formatHistogram histo').
Proof.
  intros Hperm.
  assert (Hlines : Permutation (histogramLines histo) (histogramLines histo'))
    by (apply Permutation_flat_map, Hperm).
  split; [exact Hlines|].
  split; [apply formatHistogram_concat|].
  split.
  - unfold histogramLines. clear.
    induction histo as [|[k [val|]] histo IH]; simpl; auto.
  - rewrite (proj2 (formatHistogram_concat histo)),
      (proj2 (formatHistogram_concat histo')).
    apply (Permutation_map String.length) in Hlines.
    revert Hlines. generalize (map String.length (histogramLines histo)),
      (map String.length (histogramLines histo')).
    intros l l' Hp. induction Hp; simpl; lia.
Qed.

Lemma formatHistogram_order_witness :
  String.length
    (formatHistogram [("p50"%string, JNumber 1.5); ("unit"%string, JOther);
                      ("p99"%string, JNumber 12.25)])
  = String.length
      (formatHistogram [("p99"%string, JNumber 12.25);
                        ("p50"%string, JNumber 1.5); ("unit"%string, JOther)]).
Proof.
  apply (formatHistogram_order
           [("p50"%string, JNumber 1.5); ("unit"%string, JOther);
            ("p99"%string, JNumber 12.25)]).
  apply Permutation_sym.
  apply (Permutation_cons_app [_; _] [] _ (Permutation_refl _)).
Defined.

Example formatHistogram_sample :
  formatHistogram [("p50"%string, JNumber 1.5); ("unit"%string, JOther)]
  = ("  p50            : 1.50" ++ newline)%string.
Proof. vm_compute. reflexivity. Qed.

(** * The unit of [formatBytes] by bit length *)

Lemma pow1024_pow2 (j : Z) : 0 <= j -> 1024 ^ j = 2 ^ (10 * j).
Proof. intros Hj. rewrite Z.pow_mul_r by lia. reflexivity. Qed.

Lemma bracket_log2 (bytes k : Z) :
  0 <= k ->
  1024 ^ (k + 1) <= bytes < 1024 ^ (k + 2) ->
  Z.log2 bytes / 10 = k + 1.
Proof.
  intros Hk [Hlo Hhi].
  rewrite pow1024_pow2 in Hlo, Hhi by lia.
  assert (Hpos : 0 < bytes).
  { pose proof (Z.pow_pos_nonneg 2 (10 * (k + 1)) ltac:(lia) ltac:(lia)). lia. }
  apply Z.log2_le_pow2 in Hlo; [|exact Hpos].
  apply Z.log2_lt_pow2 in Hhi; [|exact Hpos].
  symmetry. apply (Z.div_unique _ _ _ (Z.log2 bytes - 10 * (k + 1))); lia.
Qed.

(** X16. The unit that [formatBytes] picks is decided by the bit length
    of the value alone: with [e] the tenth part (rounded down) of the
    binary logarithm of a value of at least 1024, the value is divided by
    [2^(10 e)], the greatest power of 1024 that it reaches, and the letter
    is the [e]-th of K, M, G, T, P, E; so a greater value never gets a
    smaller unit. *)
Theorem formatBytes_unit_by_bit_length (bytes : Z) :
  Int.is_uint64 bytes ->
  1024 <= bytes ->
  let e := Z.log2 bytes / 10 in
  1 <= e <= 6 /\
  2 ^ (10 * e) <= bytes < 2 ^ (10 * (e + 1)) /\
  formatBytes bytes
  = Returned (Fmt.f 1 (F64.of_Z bytes / F64.of_Z (2 ^ (10 * e)))%float
              ++ " " ++ Fmt.c (unit_letter (e - 1)) ++ "iB")%string /\
  forall smaller, 0 < smaller <= bytes -> Z.log2 smaller / 10 <= e.
Proof.
  intros Hu Hge e.
  destruct (formatBytes_scaled bytes Hu Hge) as (k & Hk & Hbr & _ & Hfmt).
  assert (He : e = k + 1) by (apply bracket_log2; [lia|exact Hbr]).
  rewrite He.
  rewrite <- !pow1024_pow2 by lia.
  replace (k + 1 - 1) with k by lia.
  replace (k + 1 + 1) with (k + 2) by lia.
  split; [lia|]. split; [exact Hbr|]. split; [exact Hfmt|].
  intros smaller [Hpos Hle].
  rewrite <- He. unfold e.
  apply Z.div_le_mono; [lia|].
  apply Z.log2_le_mono, Hle.
Qed.

Lemma formatBytes_unit_by_bit_length_witness :
  Int.is_uint64 5000000 /\
  Z.log2 5000000 / 10 = 2 /\
  2 ^ (10 * (Z.log2 5000000 / 10)) <= 5000000.
Proof.
  assert (Hu : Int.is_uint64 5000000)
    by (unfold Int.is_uint64, Int.uint64_max; lia).
  split; [exact Hu|]. split; [reflexivity|].
  exact (proj1 (proj1 (proj2 (formatBytes_unit_by_bit_length 5000000 Hu
                                ltac:(lia))))).
Defined.

(** * [updateUI] as a whole *)


Lemma updateUI_too_long
  (unrepresentable : float -> Z) (memory : Z) (s : state) (ui : UI)
  (p : ptr) (st : FilebeatStats) :
  lastStats s = Some p ->
  deref (mem s) p = Some st ->
  let bars := queueBars unrepresentable
                (Libbeat_Pipeline_Queue_Filled_Events st)
                (Libbeat_Pipeline_Queue_MaxEvents st) in
  0 < bars -> Z.min maxAlloc memory < 3 * bars ->
  updateUI unrepresentable memory s ui = Panicked.
Proof.
  intros Hp Hst bars Hpos Hlong.
  unfold updateUI, last_snapshot. rewrite Hp, Hst.
  unfold updateQueue.
  rewrite (queueText_too_long unrepresentable memory _ _ Hpos Hlong).
  reflexivity.
Qed.



(** A tick that publishes a snapshot the renderer cannot draw: 6e15
    events in a queue of 1 ask for a bar beyond [maxAlloc]. *)
Definition flooded_tick : tick :=
  {| stats_reply :=
       Response 200 (Some (sample_stats 0 0 6000000000000000 1 []));
     inputs_reply := NoResponse;
     now := 0 |}.

Example updateUI_panics (memory : Z) (ui : UI) :
  updateUI F64.amd64_indefinite memory (dataWorker [flooded_tick] initial) ui
  = Panicked.
Proof.
  assert (H : queueBars F64.amd64_indefinite 6000000000000000 1
              = 120000000000000000) by (vm_compute; reflexivity).
  assert (Hmx : maxAlloc = 281474976710656) by reflexivity.
  apply (updateUI_too_long F64.amd64_indefinite memory
           (dataWorker [flooded_tick] initial) ui 0%nat
           (set_Timestamp 0 (sample_stats 0 0 6000000000000000 1 []))
           eq_refl eq_refl);
    cbn [sample_stats Libbeat_Pipeline_Queue_Filled_Events
           Libbeat_Pipeline_Queue_MaxEvents set_Timestamp];
    rewrite H; lia.
Qed.

(** * When a fetch succeeds *)

(** X18. [fetchStats] and [fetchInputs] succeed exactly on a reply with
    status 200 whose body decodes. Any other status is an error that
    carries the code, also another 2xx and also when the body would
    decode: the status is tested before the body is read. A successful
    [fetchStats] allocates one snapshot, equal to the payload but for its
    timestamp, which is the local clock whatever the payload says. *)
Theorem fetch_succeeds_iff
  (rs : reply FilebeatStats) (ri : reply (list Input)) (now_ : Z) (h : heap) :
  ((exists p m, fetchStats rs now_ h = inl (p, m)) <->
   (exists stats, rs = Response 200 (Some stats))) /\
  ((exists inputs, fetchInputs ri = inl inputs) <->
   (exists inputs, ri = Response 200 (Some inputs))) /\
  (forall status body body',
     status <> 200 ->
     fetchStats (Response status body) now_ h = inr (ErrStatus status) /\
     fetchInputs (Response status body') = inr (ErrStatus status)) /\
  (forall stats,
     fetchStats (Response 200 (Some stats)) now_ h
     = inl (List.length h, h ++ [set_Timestamp now_ stats]) /\
     Timestamp (set_Timestamp now_ stats) = now_ /\
     set_Timestamp (Timestamp stats) (set_Timestamp now_ stats)
     = set_Timestamp (Timestamp stats) stats).
Proof.
  split; [|split; [|split]].
  - split.
    + intros (p & m & Hf).
      destruct (fetchStats_ok _ _ _ _ _ Hf) as (stats & -> & _).
      exists stats. reflexivity.
    + intros (stats & ->). do 2 eexists. reflexivity.
  - split.
    + intros (inputs & Hf). destruct ri as [|status body]; [discriminate|].
      simpl in Hf. destruct (Z.eqb_spec status StatusOK) as [->|];
        [|discriminate].
      destruct body as [inputs'|]; [|discriminate].
      exists inputs'. reflexivity.
    + intros (inputs & ->). eexists. reflexivity.
  - intros status body body' Hne. unfold fetchStats, fetchInputs.
    destruct (Z.eqb_spec status StatusOK) as [Heq|_];
      [unfold StatusOK in Heq; contradiction|].
    split; reflexivity.
  - intros stats. repeat split.
Qed.

Example no_content_is_a_failure :
  fetchInputs (Response 204 (Some [])) = inr (ErrStatus 204).
Proof. reflexivity. Qed.
